(** * find.py: duplicate "EMP ID" report

    A shallow embedding of [find_duplicate_emp_ids] from [find.py].

    The script is a straight line of pandas calls.  Each call is given a
    Rocq definition that follows the documented behaviour of the pandas
    operation it stands for:

    - [pd.read_json] opens the path (a missing file raises
      [FileNotFoundError], a path that cannot be opened as a file raises
      another [OSError], content it cannot load raises [ValueError]) and
      returns a frame with one column per key that occurs in some JSON
      object of the array and one row per object, cells without a value
      filled with NaN.  What it does to the text of the file on the way
      (parsing the JSON, then inferring a dtype for each column, which
      turns numeric-looking strings into numbers, strings it reads as
      missing into NaN, and integers next to a missing value into
      floats) works on text and floating point and is not modelled: a
      file is represented by the records as [read_json] loads them, each
      field holding the value of its cell in the returned frame.  Every
      statement below about the values of "EMP ID" is about these loaded
      values, not about the way the file spells them;
    - [df['EMP ID']] raises [KeyError] when the frame has no such column;
    - [Series.value_counts()] ([dropna=True], [sort=True]) drops NaN cells,
      tallies the remaining ones in order of first appearance and sorts
      the tallies by descending count.  Entries of equal count are kept
      in order of first appearance, which is what pandas' sort does on
      short tables; on long ones it may order them otherwise, and no
      statement below depends on the order of entries of equal count;
    - [s[s > 1]] keeps the entries of [s] selected by the boolean mask
      (a mask of another length is refused);
    - [reset_index()] turns the index into a column of a new frame (the
      script renames both columns at once, so the names pandas gives
      them are never printed);
    - [to_markdown] hands the frame to the [tabulate] package, taken to
      be installed.  The text that package lays out is not modelled: the
      print event carries the frame that is rendered.

    Python objects live in a heap addressed by allocation order, so that
    the one in-place update of the script ([df_duplicates.columns = ...])
    and the absence of any other mutation can be stated. *)

From stdpp Require Import base decidable option list sorting strings pretty gmap.

#[local] Open Scope string_scope.
#[local] Open Scope list_scope.
#[local] Open Scope nat_scope.

(** ** Cells and records *)

(** The scalar a cell of a loaded frame holds.  [VNull] is pandas'
    missing value (NaN or None: a JSON [null], the filling of an absent
    key, or whatever dtype inference turned into NaN).  [VNum z] is a
    number, named by its value: an int64 cell and a float64 cell that hold
    the same whole number are the same key to [value_counts].  [VStr s]
    is a string that dtype inference left a string.  Cells that hold a
    number with a fraction or a boolean are not covered. *)
Inductive value :=
  | VNull
  | VNum (z : Z)
  | VStr (s : string).

#[global] Instance value_eq_dec : EqDecision value.
Proof. solve_decision. Defined.

Definition isna (v : value) : bool :=
  match v with VNull => true | _ => false end.

Definition notna (v : value) : bool := negb (isna v).

(** One record as loaded: the fields of one JSON object of the array,
    each with the value its cell holds in the loaded frame. *)
Abbreviation record := (gmap string value).

(** ** Frames and series *)

(** A frame is stored by column, in column order. *)
Record DataFrame := mkDataFrame { frame_data : list (string * list value) }.

Definition columns (df : DataFrame) : list string := (frame_data df).*1.

(** The keys that occur in some record, each once.  The order pandas
    gives the columns (first appearance in the file) is not tracked: the
    script reaches a column by its name only. *)
Definition union_keys (rs : list record) : list string :=
  remove_dups (rs ≫= λ r, (map_to_list r).*1).

(** The cell of record [r] under column [c]: NaN when the key is absent. *)
Definition cell (c : string) (r : record) : value := default VNull (r !! c).

(** The frame [read_json] returns for the loaded records [rs]: a column
    for every key, a row for every record. *)
Definition from_records (rs : list record) : DataFrame :=
  mkDataFrame ((λ c, (c, cell c <$> rs)) <$> union_keys rs).

(** [df[c]] on the column data: [None] stands for [KeyError]. *)
Fixpoint assoc (c : string) (d : list (string * list value)) : option (list value) :=
  match d with
  | [] => None
  | (c', xs) :: d' => if decide (c' = c) then Some xs else assoc c d'
  end.

Definition getitem_column (df : DataFrame) (c : string) : option (list value) :=
  assoc c (frame_data df).

(** *** value_counts *)

(** The tally kept while scanning the column: one entry per distinct
    value, in order of first appearance. *)
Fixpoint bump (v : value) (tbl : list (value * nat)) : list (value * nat) :=
  match tbl with
  | [] => [(v, 1)]
  | (u, c) :: tbl' =>
      if decide (u = v) then (u, S c) :: tbl' else (u, c) :: bump v tbl'
  end.

Definition tally (cells : list value) : list (value * nat) :=
  foldl (λ tbl v, bump v tbl) [] (filter (λ v, notna v) cells).

(** Descending order on counts, the order [sort_values(ascending=False)]
    establishes. *)
Definition count_ge (a b : value * nat) : Prop := (b.2 ≤ a.2)%nat.

#[global] Instance count_ge_dec a b : Decision (count_ge a b).
Proof. unfold count_ge. apply _. Defined.

(** [sort_values(ascending=False)] as an insertion sort: an entry goes
    in front of the first entry whose count is not larger, so entries of
    equal count stay in the order they had. *)
Fixpoint insert_desc (e : value * nat) (tbl : list (value * nat)) :
    list (value * nat) :=
  match tbl with
  | [] => [e]
  | e' :: tbl' =>
      if decide (count_ge e e') then e :: e' :: tbl' else e' :: insert_desc e tbl'
  end.

Definition sort_values (tbl : list (value * nat)) : list (value * nat) :=
  foldr insert_desc [] tbl.

Definition value_counts (cells : list value) : list (value * nat) :=
  sort_values (tally cells).

(** *** Boolean masks *)

(** [s > n]: one bit per entry. *)
Definition series_gt (s : list (value * nat)) (n : nat) : list bool :=
  (λ e, bool_decide (n < e.2)%nat) <$> s.

(** [s[mask]]: the entries whose bit is set, in their order. *)
Fixpoint select_mask {A} (s : list A) (mask : list bool) : list A :=
  match s, mask with
  | x :: s', b :: mask' =>
      if b then x :: select_mask s' mask' else select_mask s' mask'
  | _, _ => []
  end.

(** *** reset_index and the columns setter *)

Definition count_cell (n : nat) : value := VNum (Z.of_nat n).

(** [reset_index()] of a value_counts series of column [c]: the index
    becomes column [c], the counts become column ["count"]. *)
Definition reset_index (c : string) (s : list (value * nat)) : DataFrame :=
  mkDataFrame [(c, s.*1); ("count", count_cell <$> s.*2)].

(** [df.columns = names]: [None] stands for the [ValueError] pandas raises
    on a length mismatch. *)
Definition set_columns (df : DataFrame) (names : list string) : option DataFrame :=
  if decide (length names = length (frame_data df))
  then Some (mkDataFrame (zip names (frame_data df).*2))
  else None.

(** The rows of a frame, read across its columns. *)
Fixpoint frame_rows (d : list (list value)) : list (list value) :=
  match d with
  | [] => []
  | [xs] => (λ x, [x]) <$> xs
  | xs :: d' => zip_with cons xs (frame_rows d')
  end.

Definition rows (df : DataFrame) : list (list value) :=
  frame_rows (frame_data df).*2.

(** ** The world the script runs in *)

(** What [pd.read_json] makes of a path that exists: something it cannot
    open as a file (a directory, a file it may not read), content it
    cannot load, or a JSON array of objects that it loads as the records
    [rs].  The records are the loaded ones: the text of the file and the
    dtype inference of [read_json] lie behind this type. *)
Inductive FileContent :=
  | Unreadable
  | Unparsable
  | JsonRecords (rs : list record).

(** The pandas objects the script creates. *)
Inductive pyobj :=
  | OFrame (df : DataFrame)
  | OColumn (name : string) (cells : list value)
  | OCounts (name : string) (tbl : list (value * nat))
  | OMask (bits : list bool).

(** A Python [str] handed to [print]: a literal line, or the text
    [tabulate] lays out for a frame. *)
Inductive text :=
  | Plain (s : string)
  | Rendered (df : DataFrame).

(** The exceptions the modelled calls raise.  [OSError] stands for the
    operating-system errors other than [FileNotFoundError]
    ([IsADirectoryError], [PermissionError]).  Failures of the Python
    runtime or of a missing package are not modelled. *)
Inductive exn :=
  | FileNotFoundError (path : string)
  | OSError
  | ValueError
  | KeyError (key : string)
  | TypeError.

Record World := mkWorld {
  files : gmap string FileContent;
  heap : list pyobj;
  stdout : list text
}.

Inductive result (A : Type) :=
  | Ret (a : A)
  | Raise (e : exn).
Arguments Ret {A} a.
Arguments Raise {A} e.

(** Computations over the world that return or raise. *)
Definition M (A : Type) : Type := World → World * result A.

#[global] Instance M_ret : MRet M := λ A a w, (w, Ret a).

#[global] Instance M_bind : MBind M := λ A B k m w,
  match m w with
  | (w', Ret a) => k a w'
  | (w', Raise e) => (w', Raise e)
  end.

Definition raise {A} (e : exn) : M A := λ w, (w, Raise e).

(** [try: x = body / except <caught>: handler] followed by [rest x]: the
    handler sees only what [body] raises. *)
Definition try_except {A B} (body : M A) (caught : exn → bool)
    (handler : M B) (rest : A → M B) : M B := λ w,
  match body w with
  | (w', Ret a) => rest a w'
  | (w', Raise e) => if caught e then handler w' else (w', Raise e)
  end.

Definition is_FileNotFoundError (e : exn) : bool :=
  match e with FileNotFoundError _ => true | _ => false end.

(** *** Heap access *)

Abbreviation loc := nat.

Definition alloc (o : pyobj) : M loc := λ w,
  (mkWorld (files w) (heap w ++ [o]) (stdout w), Ret (length (heap w))).

Definition deref (l : loc) : M pyobj := λ w,
  match heap w !! l with
  | Some o => (w, Ret o)
  | None => (w, Raise TypeError)
  end.

Definition store (l : loc) (o : pyobj) : M unit := λ w,
  (mkWorld (files w) (<[l:=o]> (heap w)) (stdout w), Ret tt).

Definition print (t : text) : M unit := λ w,
  (mkWorld (files w) (heap w) (stdout w ++ [t]), Ret tt).

(** *** The pandas calls of the script *)

Definition read_json (path : string) : M loc := λ w,
  match files w !! path with
  | None => (w, Raise (FileNotFoundError path))
  | Some Unreadable => (w, Raise OSError)
  | Some Unparsable => (w, Raise ValueError)
  | Some (JsonRecords rs) => alloc (OFrame (from_records rs)) w
  end.

Definition frame_getitem (df : loc) (c : string) : M loc :=
  o ← deref df;
  match o with
  | OFrame f =>
      match getitem_column f c with
      | Some cells => alloc (OColumn c cells)
      | None => raise (KeyError c)
      end
  | _ => raise TypeError
  end.

Definition series_value_counts (s : loc) : M loc :=
  o ← deref s;
  match o with
  | OColumn c cells => alloc (OCounts c (value_counts cells))
  | _ => raise TypeError
  end.

Definition series_gt_scalar (s : loc) (n : nat) : M loc :=
  o ← deref s;
  match o with
  | OCounts _ tbl => alloc (OMask (series_gt tbl n))
  | _ => raise TypeError
  end.

Definition series_getitem (s mask : loc) : M loc :=
  o ← deref s;
  b ← deref mask;
  match o, b with
  | OCounts c tbl, OMask bits =>
      if decide (length bits = length tbl)
      then alloc (OCounts c (select_mask tbl bits))
      else raise ValueError
  | _, _ => raise TypeError
  end.

Definition series_empty (s : loc) : M bool :=
  o ← deref s;
  match o with
  | OCounts _ tbl => mret (bool_decide (length tbl = 0%nat))
  | _ => raise TypeError
  end.

Definition series_len (s : loc) : M nat :=
  o ← deref s;
  match o with
  | OCounts _ tbl => mret (length tbl)
  | _ => raise TypeError
  end.

Definition series_reset_index (s : loc) : M loc :=
  o ← deref s;
  match o with
  | OCounts c tbl => alloc (OFrame (reset_index c tbl))
  | _ => raise TypeError
  end.

Definition frame_set_columns (df : loc) (names : list string) : M unit :=
  o ← deref df;
  match o with
  | OFrame f =>
      match set_columns f names with
      | Some f' => store df (OFrame f')
      | None => raise ValueError
      end
  | _ => raise TypeError
  end.

Definition frame_to_markdown (df : loc) : M text :=
  o ← deref df;
  match o with
  | OFrame f => mret (Rendered f)
  | _ => raise TypeError
  end.

(** ** The script *)

Definition not_found_message (file_name : string) : string :=
  "Error: File '" +:+ file_name +:+ "' not found.".

Definition no_duplicates_message : string :=
  "No EMP IDs were found with more than one entry in the data.".

Definition header_line (n : nat) : string :=
  "--- EMP IDs with more than 1 entry (" +:+ pretty n +:+ " IDs found) ---".

Definition find_duplicate_emp_ids (file_name : string) : M unit :=
  try_except (read_json file_name) is_FileNotFoundError
    (print (Plain (not_found_message file_name)))
    (λ df,
      emp_id ← frame_getitem df "EMP ID";
      id_counts ← series_value_counts emp_id;
      mask ← series_gt_scalar id_counts 1;
      duplicate_ids ← series_getitem id_counts mask;
      is_empty ← series_empty duplicate_ids;
      if is_empty : bool then
        print (Plain no_duplicates_message)
      else
        n ← series_len duplicate_ids;
        print (Plain (header_line n));;
        df_duplicates ← series_reset_index duplicate_ids;
        frame_set_columns df_duplicates ["EMP ID"; "Count of Entries"];;
        md ← frame_to_markdown df_duplicates;
        print md).

(** The module-level call at the end of the script. *)
Definition file_name : string := "membercsvjson.json".

Definition main : M unit := find_duplicate_emp_ids file_name.

(** ** The values a run goes through *)

(** Closed forms of what the calls of the script produce one after the
    other; [run_loaded] below shows that a run creates and prints exactly
    these. *)

(** The entries the script keeps: [id_counts[id_counts > 1]]. *)
Definition duplicates (cells : list value) : list (value * nat) :=
  select_mask (value_counts cells) (series_gt (value_counts cells) 1).

(** The frame the script prints: [reset_index()] of the kept entries
    under the two column names it assigns. *)
Definition report_frame (cells : list value) : DataFrame :=
  mkDataFrame [("EMP ID", (duplicates cells).*1);
               ("Count of Entries", count_cell <$> (duplicates cells).*2)].

(** The objects every run allocates once the column is found. *)
Definition trace (rs : list record) (cells : list value) : list pyobj :=
  [OFrame (from_records rs);
   OColumn "EMP ID" cells;
   OCounts "EMP ID" (value_counts cells);
   OMask (series_gt (value_counts cells) 1);
   OCounts "EMP ID" (duplicates cells)].

(** The number of cells of a column that carry [v]. *)
Definition occurrences (v : value) (cells : list value) : nat :=
  length (filter (λ x, x = v) cells).

(** The count a table holds for [v], 0 when [v] is not a key. *)
Fixpoint count_of (v : value) (tbl : list (value * nat)) : nat :=
  match tbl with
  | [] => 0
  | (u, c) :: tbl' => if decide (u = v) then c else count_of v tbl'
  end.

(** The sum of the counts of a table. *)
Definition total (tbl : list (value * nat)) : nat := sum_list_with snd tbl.

(** What a run prints once the column is found. *)
Definition report (cells : list value) : list text :=
  if bool_decide (length (duplicates cells) = 0)
  then [Plain no_duplicates_message]
  else [Plain (header_line (length (duplicates cells)));
        Rendered (report_frame cells)].

(** The distinct non-null values that occur more than once in a column. *)
Definition duplicated_values (cells : list value) : list value :=
  remove_dups (filter (λ u, u ≠ VNull ∧ 1 < occurrences u cells) cells).

(** ** Observations of a run *)

(** The run of the function on [path] from [w] returns normally. *)
Definition returns (path : string) (w : World) : Prop :=
  (find_duplicate_emp_ids path w).2 = Ret tt.

(** The run ends in the uncaught exception [e]. *)
Definition raises (path : string) (w : World) (e : exn) : Prop :=
  (find_duplicate_emp_ids path w).2 = Raise e.

(** The run writes exactly [out] to standard output. *)
Definition prints (path : string) (w : World) (out : list text) : Prop :=
  stdout (find_duplicate_emp_ids path w).1 = stdout w ++ out.

(** The [k]-th object the run creates is [o]. *)
Definition creates (path : string) (w : World) (k : nat) (o : pyobj) : Prop :=
  heap (find_duplicate_emp_ids path w).1 !! (length (heap w) + k) = Some o.

(** ** Example inputs *)

Definition emp (v : value) : record := {[ "EMP ID" := v ]}.

Definition world_of (content : FileContent) : World :=
  mkWorld {[ file_name := content ]} [] [].

Definition empty_world : World := mkWorld ∅ [] [].

(** ** Reports up to the order of rows *)

(** Two printed items agree up to the order of the rows of a table. *)
Definition same_rows (t t' : text) : Prop :=
  match t, t' with
  | Plain s, Plain s' => s = s'
  | Rendered df, Rendered df' => columns df = columns df' ∧ rows df ≡ₚ rows df'
  | _, _ => False
  end.

(** * What the pandas calls compute *)

#[global] Instance count_ge_total : Total count_ge.
Proof. intros a b. unfold count_ge. lia. Qed.

#[global] Instance count_ge_trans : Transitive count_ge.
Proof. intros a b c. unfold count_ge. lia. Qed.

Section frames.

Implicit Types (c : string) (rs : list record) (r : record).

Lemma assoc_tabulate c (f : string → list value) (cs : list string) :
  assoc c ((λ c', (c', f c')) <$> cs) = if decide (c ∈ cs) then Some (f c) else None.
Proof.
  induction cs as [|c' cs IH]; [done|]. cbn [fmap list_fmap assoc].
  destruct (decide (c' = c)) as [->|Hne].
  - rewrite decide_True; [done | by left].
  - rewrite IH. destruct (decide (c ∈ cs)) as [Hin|Hnin].
    + rewrite decide_True; [done | by right].
    + rewrite decide_False; [done|]. by intros [?|?]%elem_of_cons.
Qed.

Lemma elem_of_union_keys c rs :
  c ∈ union_keys rs ↔ ∃ r, r ∈ rs ∧ is_Some (r !! c).
Proof.
  unfold union_keys. rewrite elem_of_remove_dups, list_elem_of_bind.
  split.
  - intros (r & Hc & Hr). exists r. split; [done|].
    apply list_elem_of_fmap in Hc as ([c' v] & -> & Hcv).
    apply elem_of_map_to_list in Hcv. by exists v.
  - intros (r & Hr & v & Hv). exists r. split; [|done].
    apply list_elem_of_fmap. exists (c, v). split; [done|].
    by apply elem_of_map_to_list.
Qed.

(** [df[c]] succeeds exactly when some record has key [c], and then
    yields one cell per record. *)
Lemma getitem_column_Some c rs r :
  r ∈ rs → is_Some (r !! c) →
  getitem_column (from_records rs) c = Some (cell c <$> rs).
Proof.
  intros Hr Hc. unfold getitem_column, from_records. cbn [frame_data].
  rewrite (assoc_tabulate c (λ c', cell c' <$> rs)).
  rewrite decide_True; [done|]. apply elem_of_union_keys. eauto.
Qed.

Lemma getitem_column_None c rs :
  (∀ r, r ∈ rs → r !! c = None) → getitem_column (from_records rs) c = None.
Proof.
  intros Hno. unfold getitem_column, from_records. cbn [frame_data].
  rewrite (assoc_tabulate c (λ c', cell c' <$> rs)).
  rewrite decide_False; [done|].
  intros (r & Hr & Hc)%elem_of_union_keys. rewrite (Hno r Hr) in Hc.
  by destruct Hc.
Qed.

Lemma getitem_column_inv c rs cells :
  getitem_column (from_records rs) c = Some cells → cells = cell c <$> rs.
Proof.
  unfold getitem_column, from_records. cbn [frame_data].
  rewrite (assoc_tabulate c (λ c', cell c' <$> rs)).
  case_decide; congruence.
Qed.

End frames.

Section counting.

Implicit Types (v u : value) (tbl : list (value * nat)) (cells : list value).

Lemma occurrences_cons v x cells :
  occurrences v (x :: cells) =
    (if decide (x = v) then 1 else 0) + occurrences v cells.
Proof.
  unfold occurrences. rewrite filter_cons. by case_decide.
Qed.

Lemma occurrences_pos v cells : 0 < occurrences v cells ↔ v ∈ cells.
Proof.
  induction cells as [|x cells IH].
  - split; [cbn; lia | by intros ?%elem_of_nil].
  - rewrite occurrences_cons, elem_of_cons. case_decide; [|cbn; rewrite IH].
    + split; [auto | lia].
    + split; [auto | intros [?|?]; [congruence | done]].
Qed.

Lemma occurrences_notna v cells :
  v ≠ VNull → occurrences v (filter (λ x, notna x) cells) = occurrences v cells.
Proof.
  intros Hv. induction cells as [|x cells IH]; [done|].
  rewrite filter_cons. destruct x; cbn [notna isna negb]; case_decide;
    try done; rewrite ?occurrences_cons, ?IH; try done.
  by rewrite decide_False by done.
Qed.

(** *** One step of the tally *)

Lemma count_of_bump v u tbl :
  count_of v (bump u tbl) = (if decide (u = v) then 1 else 0) + count_of v tbl.
Proof.
  induction tbl as [|[u' c] tbl IH]; cbn [bump count_of].
  - by case_decide.
  - destruct (decide (u' = u)) as [->|Hne]; cbn [count_of].
    + by case_decide.
    + rewrite IH. destruct (decide (u' = v)) as [->|?]; [|done].
      by rewrite decide_False.
Qed.

Lemma keys_bump v u tbl : v ∈ (bump u tbl).*1 ↔ v = u ∨ v ∈ tbl.*1.
Proof.
  induction tbl as [|[u' c] tbl IH]; cbn [bump].
  - cbn. rewrite list_elem_of_singleton, elem_of_nil. tauto.
  - destruct (decide (u' = u)) as [->|Hne]; cbn [fmap list_fmap fst].
    + rewrite !elem_of_cons. tauto.
    + rewrite !elem_of_cons, IH. tauto.
Qed.

Lemma NoDup_bump u tbl : NoDup tbl.*1 → NoDup (bump u tbl).*1.
Proof.
  induction tbl as [|[u' c] tbl IH]; cbn [bump].
  - intros _. cbn. apply NoDup_singleton.
  - cbn [fmap list_fmap fst]. rewrite NoDup_cons. intros [Hnin Hnd].
    destruct (decide (u' = u)) as [->|Hne]; cbn [fmap list_fmap fst].
    + by apply NoDup_cons.
    + apply NoDup_cons. split; [|auto].
      rewrite keys_bump. intros [?|?]; [congruence | done].
Qed.

Lemma total_bump u tbl : total (bump u tbl) = S (total tbl).
Proof.
  unfold total. induction tbl as [|[u' c] tbl IH]; cbn [bump]; [done|].
  case_decide; cbn [sum_list_with snd]; [done|]. rewrite IH. lia.
Qed.

(** *** The whole scan *)

Lemma count_of_scan v tbl cells :
  count_of v (foldl (λ tbl u, bump u tbl) tbl cells) =
    count_of v tbl + occurrences v cells.
Proof.
  revert tbl. induction cells as [|x cells IH]; intros tbl; cbn [foldl].
  - unfold occurrences. cbn. lia.
  - rewrite IH, count_of_bump, occurrences_cons. lia.
Qed.

Lemma keys_scan v tbl cells :
  v ∈ (foldl (λ tbl u, bump u tbl) tbl cells).*1 ↔ v ∈ tbl.*1 ∨ v ∈ cells.
Proof.
  revert tbl. induction cells as [|x cells IH]; intros tbl; cbn [foldl].
  - rewrite elem_of_nil. tauto.
  - rewrite IH, keys_bump, elem_of_cons. tauto.
Qed.

Lemma NoDup_scan tbl cells :
  NoDup tbl.*1 → NoDup (foldl (λ tbl u, bump u tbl) tbl cells).*1.
Proof.
  revert tbl. induction cells as [|x cells IH]; intros tbl; cbn [foldl]; [done|].
  intros Hnd. by apply IH, NoDup_bump.
Qed.

Lemma total_scan tbl cells :
  total (foldl (λ tbl u, bump u tbl) tbl cells) = total tbl + length cells.
Proof.
  revert tbl. induction cells as [|x cells IH]; intros tbl; cbn [foldl length].
  - lia.
  - rewrite IH, total_bump. lia.
Qed.

(** *** Tables with distinct keys *)

Lemma count_of_absent v tbl : v ∉ tbl.*1 → count_of v tbl = 0.
Proof.
  induction tbl as [|[u c] tbl IH]; [done|].
  cbn [fmap list_fmap fst count_of]. rewrite not_elem_of_cons. intros [Hne Hnin].
  rewrite decide_False by done. auto.
Qed.

Lemma count_of_elem_of v n tbl :
  NoDup tbl.*1 → (v, n) ∈ tbl → count_of v tbl = n.
Proof.
  induction tbl as [|[u c] tbl IH]; [by intros _ ?%elem_of_nil|].
  cbn [fmap list_fmap fst count_of]. rewrite NoDup_cons, elem_of_cons.
  intros [Hnin Hnd] [Heq|Hin].
  - injection Heq as -> ->. by rewrite decide_True.
  - rewrite decide_False; [auto|]. intros ->. apply Hnin.
    apply list_elem_of_fmap. by exists (v, n).
Qed.

Lemma elem_of_count_of v tbl : v ∈ tbl.*1 → (v, count_of v tbl) ∈ tbl.
Proof.
  induction tbl as [|[u c] tbl IH]; [by intros ?%elem_of_nil|].
  cbn [fmap list_fmap fst count_of]. rewrite elem_of_cons.
  destruct (decide (u = v)) as [->|Hne]; [by left|].
  intros [?|?]; [congruence|]. right. auto.
Qed.

Lemma count_of_Permutation v tbl tbl' :
  NoDup tbl.*1 → tbl ≡ₚ tbl' → count_of v tbl' = count_of v tbl.
Proof.
  intros Hnd Hp.
  assert (NoDup tbl'.*1) as Hnd' by by rewrite <- Hp.
  destruct (decide (v ∈ tbl.*1)) as [Hin|Hnin].
  - apply count_of_elem_of; [done|]. rewrite <- Hp. by apply elem_of_count_of.
  - rewrite (count_of_absent v tbl) by done. apply count_of_absent.
    by rewrite <- Hp.
Qed.

(** *** value_counts *)

Lemma NoDup_tally cells : NoDup (tally cells).*1.
Proof. apply NoDup_scan. cbn. apply NoDup_nil_2. Qed.

Lemma insert_desc_Permutation e tbl : insert_desc e tbl ≡ₚ e :: tbl.
Proof.
  induction tbl as [|e' tbl IH]; cbn [insert_desc]; [done|].
  case_decide; [done|]. rewrite IH. apply Permutation_swap.
Qed.

Lemma sort_values_Permutation tbl : sort_values tbl ≡ₚ tbl.
Proof.
  induction tbl as [|e tbl IH]; [done|].
  cbn [sort_values foldr]. fold (sort_values tbl).
  by rewrite insert_desc_Permutation, IH.
Qed.

Lemma insert_desc_HdRel a e tbl :
  count_ge a e → HdRel count_ge a tbl → HdRel count_ge a (insert_desc e tbl).
Proof.
  intros Hae Hhd. destruct Hhd as [|e' tbl Hae']; cbn [insert_desc].
  - by constructor.
  - case_decide; by constructor.
Qed.

Lemma insert_desc_Sorted e tbl :
  Sorted count_ge tbl → Sorted count_ge (insert_desc e tbl).
Proof.
  induction 1 as [|e' tbl Hs IH Hhd]; cbn [insert_desc].
  - by repeat constructor.
  - case_decide as Hge.
    + constructor; [by constructor | by constructor].
    + constructor; [done|]. apply insert_desc_HdRel; [|done].
      destruct (count_ge_total e e'); done.
Qed.

Lemma sort_values_Sorted tbl : Sorted count_ge (sort_values tbl).
Proof.
  induction tbl as [|e tbl IH]; [constructor|].
  cbn [sort_values foldr]. by apply insert_desc_Sorted.
Qed.

Lemma value_counts_Permutation cells : value_counts cells ≡ₚ tally cells.
Proof. apply sort_values_Permutation. Qed.

Lemma NoDup_value_counts cells : NoDup (value_counts cells).*1.
Proof. rewrite value_counts_Permutation. apply NoDup_tally. Qed.

Lemma Sorted_value_counts cells : StronglySorted count_ge (value_counts cells).
Proof. apply Sorted_StronglySorted; [apply _ | apply sort_values_Sorted]. Qed.

Lemma keys_value_counts v cells :
  v ∈ (value_counts cells).*1 ↔ v ≠ VNull ∧ v ∈ cells.
Proof.
  rewrite value_counts_Permutation. unfold tally.
  rewrite keys_scan, list_elem_of_filter. cbn. rewrite elem_of_nil.
  destruct v; cbn [notna isna negb Is_true]; intuition congruence.
Qed.

Lemma count_of_value_counts v cells :
  v ≠ VNull → count_of v (value_counts cells) = occurrences v cells.
Proof.
  intros Hv.
  rewrite (count_of_Permutation v (tally cells))
    by (apply NoDup_tally || (symmetry; apply value_counts_Permutation)).
  unfold tally. rewrite count_of_scan. cbn [count_of].
  by rewrite occurrences_notna.
Qed.

(** The entries of the frequency table: each non-null value of the
    column, once, with the number of cells that carry it. *)
Lemma elem_of_value_counts v n cells :
  (v, n) ∈ value_counts cells ↔ v ≠ VNull ∧ 0 < n ∧ n = occurrences v cells.
Proof.
  split.
  - intros Hin.
    assert (v ∈ (value_counts cells).*1) as Hkey.
    { apply list_elem_of_fmap. by exists (v, n). }
    apply keys_value_counts in Hkey as [Hv Hcell].
    apply count_of_elem_of in Hin; [|apply NoDup_value_counts].
    rewrite count_of_value_counts in Hin by done. subst n.
    by rewrite occurrences_pos.
  - intros (Hv & Hpos & ->).
    rewrite <- (count_of_value_counts v cells) by done.
    apply elem_of_count_of, keys_value_counts.
    by rewrite <- occurrences_pos.
Qed.

Lemma total_value_counts cells :
  total (value_counts cells) = length (filter (λ x, notna x) cells).
Proof.
  unfold total. rewrite value_counts_Permutation. fold (total (tally cells)).
  unfold tally. by rewrite total_scan.
Qed.

(** *** The mask and the kept entries *)

Lemma select_mask_gt tbl n :
  select_mask tbl (series_gt tbl n) = filter (λ e, n < e.2) tbl.
Proof.
  induction tbl as [|e tbl IH]; [done|].
  cbn [series_gt fmap list_fmap select_mask]. rewrite filter_cons.
  fold (series_gt tbl n). rewrite IH.
  by destruct (decide (n < e.2)); [rewrite bool_decide_true | rewrite bool_decide_false].
Qed.

Lemma NoDup_keys_filter (P : value * nat → Prop) `{∀ e, Decision (P e)} tbl :
  NoDup tbl.*1 → NoDup (filter P tbl).*1.
Proof.
  induction tbl as [|e tbl IH]; [done|].
  cbn [fmap list_fmap]. rewrite NoDup_cons, filter_cons. intros [Hnin Hnd].
  case_decide; [|auto]. cbn [fmap list_fmap]. apply NoDup_cons. split; [|auto].
  intros (e' & Hfst & [_ Hin]%list_elem_of_filter)%list_elem_of_fmap.
  apply Hnin, list_elem_of_fmap. eauto.
Qed.

Lemma StronglySorted_filter {A} (R : relation A) (P : A → Prop)
    `{∀ x, Decision (P x)} (l : list A) :
  StronglySorted R l → StronglySorted R (filter P l).
Proof.
  induction 1 as [|x l Hl IH Hx]; [constructor|].
  rewrite filter_cons. case_decide; [|done]. constructor; [done|].
  apply Forall_forall. intros y [_ Hy]%list_elem_of_filter.
  by eapply Forall_forall in Hx.
Qed.

Lemma Sorted_adjacent {A} (R : relation A) (l : list A) i x y :
  Sorted R l → l !! i = Some x → l !! S i = Some y → R x y.
Proof.
  intros Hs. revert i. induction Hs as [|a l Hl IH Hhd]; intros i; [done|].
  destruct i as [|i]; cbn.
  - intros [= ->] Hy. destruct Hhd as [|b l' Hab]; [done|].
    cbn in Hy. by injection Hy as ->.
  - apply IH.
Qed.

Lemma duplicates_filter cells :
  duplicates cells = filter (λ e, 1 < e.2) (value_counts cells).
Proof. apply select_mask_gt. Qed.

Lemma elem_of_duplicates v n cells :
  (v, n) ∈ duplicates cells ↔ v ≠ VNull ∧ 1 < n ∧ n = occurrences v cells.
Proof.
  rewrite duplicates_filter, list_elem_of_filter, elem_of_value_counts.
  cbn. intuition lia.
Qed.

Lemma NoDup_duplicates cells : NoDup (duplicates cells).*1.
Proof.
  rewrite duplicates_filter. apply NoDup_keys_filter, NoDup_value_counts.
Qed.

Lemma Sorted_duplicates cells : StronglySorted count_ge (duplicates cells).
Proof.
  rewrite duplicates_filter. apply StronglySorted_filter, Sorted_value_counts.
Qed.

End counting.

(** * Running the script *)

Section run.

Implicit Types (w : World) (h : list pyobj) (l : loc) (o : pyobj).

Lemma bind_ret {A B} (m : M A) (k : A → M B) w w' a :
  m w = (w', Ret a) → (m ≫= k) w = k a w'.
Proof. intros Hm. unfold mbind, M_bind. by rewrite Hm. Qed.

Lemma bind_raise {A B} (m : M A) (k : A → M B) w w' e :
  m w = (w', Raise e) → (m ≫= k) w = (w', Raise e).
Proof. intros Hm. unfold mbind, M_bind. by rewrite Hm. Qed.

Lemma deref_run w l o : heap w !! l = Some o → deref l w = (w, Ret o).
Proof. intros Hl. unfold deref. by rewrite Hl. Qed.

(** An object allocated [k] steps after the heap was [h]. *)
Lemma lookup_fresh h objs l k o :
  l = (length h + k)%nat → objs !! k = Some o → (h ++ objs) !! l = Some o.
Proof.
  intros -> Hk. rewrite lookup_app_r by lia.
  by replace (length h + k - length h)%nat with k by lia.
Qed.

Lemma insert_fresh h objs l k o :
  l = (length h + k)%nat → <[l:=o]> (h ++ objs) = h ++ <[k:=o]> objs.
Proof. intros ->. apply insert_app_r. Qed.

(** What each pandas call does on a heap that holds its operands. *)

Lemma frame_getitem_run w l f c cells :
  heap w !! l = Some (OFrame f) → getitem_column f c = Some cells →
  frame_getitem l c w = alloc (OColumn c cells) w.
Proof.
  intros Hl Hc. unfold frame_getitem.
  rewrite (bind_ret _ _ _ _ _ (deref_run _ _ _ Hl)). by rewrite Hc.
Qed.

Lemma frame_getitem_KeyError w l f c :
  heap w !! l = Some (OFrame f) → getitem_column f c = None →
  frame_getitem l c w = (w, Raise (KeyError c)).
Proof.
  intros Hl Hc. unfold frame_getitem.
  rewrite (bind_ret _ _ _ _ _ (deref_run _ _ _ Hl)). by rewrite Hc.
Qed.

Lemma series_value_counts_run w l c cells :
  heap w !! l = Some (OColumn c cells) →
  series_value_counts l w = alloc (OCounts c (value_counts cells)) w.
Proof.
  intros Hl. unfold series_value_counts.
  by rewrite (bind_ret _ _ _ _ _ (deref_run _ _ _ Hl)).
Qed.

Lemma series_gt_scalar_run w l c tbl n :
  heap w !! l = Some (OCounts c tbl) →
  series_gt_scalar l n w = alloc (OMask (series_gt tbl n)) w.
Proof.
  intros Hl. unfold series_gt_scalar.
  by rewrite (bind_ret _ _ _ _ _ (deref_run _ _ _ Hl)).
Qed.

Lemma series_getitem_run w l lm c tbl bits :
  heap w !! l = Some (OCounts c tbl) → heap w !! lm = Some (OMask bits) →
  length bits = length tbl →
  series_getitem l lm w = alloc (OCounts c (select_mask tbl bits)) w.
Proof.
  intros Hl Hm Hlen. unfold series_getitem.
  rewrite (bind_ret _ _ _ _ _ (deref_run _ _ _ Hl)).
  rewrite (bind_ret _ _ _ _ _ (deref_run _ _ _ Hm)).
  by rewrite decide_True.
Qed.

Lemma series_empty_run w l c tbl :
  heap w !! l = Some (OCounts c tbl) →
  series_empty l w = (w, Ret (bool_decide (length tbl = 0))).
Proof.
  intros Hl. unfold series_empty.
  by rewrite (bind_ret _ _ _ _ _ (deref_run _ _ _ Hl)).
Qed.

Lemma series_len_run w l c tbl :
  heap w !! l = Some (OCounts c tbl) → series_len l w = (w, Ret (length tbl)).
Proof.
  intros Hl. unfold series_len.
  by rewrite (bind_ret _ _ _ _ _ (deref_run _ _ _ Hl)).
Qed.

Lemma series_reset_index_run w l c tbl :
  heap w !! l = Some (OCounts c tbl) →
  series_reset_index l w = alloc (OFrame (reset_index c tbl)) w.
Proof.
  intros Hl. unfold series_reset_index.
  by rewrite (bind_ret _ _ _ _ _ (deref_run _ _ _ Hl)).
Qed.

Lemma frame_set_columns_run w l f names f' :
  heap w !! l = Some (OFrame f) → set_columns f names = Some f' →
  frame_set_columns l names w = store l (OFrame f') w.
Proof.
  intros Hl Hs. unfold frame_set_columns.
  rewrite (bind_ret _ _ _ _ _ (deref_run _ _ _ Hl)). by rewrite Hs.
Qed.

Lemma frame_to_markdown_run w l f :
  heap w !! l = Some (OFrame f) → frame_to_markdown l w = (w, Ret (Rendered f)).
Proof.
  intros Hl. unfold frame_to_markdown.
  by rewrite (bind_ret _ _ _ _ _ (deref_run _ _ _ Hl)).
Qed.

Ltac fresh_at k :=
  cbn [heap]; apply (lookup_fresh _ _ _ k);
  [rewrite ?length_app; cbn [length]; lia | reflexivity].

Ltac run_step lem :=
  erewrite bind_ret; [| erewrite lem; [unfold alloc, store; reflexivity | ..]];
  cbn [files heap stdout]; rewrite <- ?app_assoc; cbn [app].

Lemma run_loaded w path rs cells :
  files w !! path = Some (JsonRecords rs) →
  getitem_column (from_records rs) "EMP ID" = Some cells →
  find_duplicate_emp_ids path w =
    if bool_decide (length (duplicates cells) = 0) then
      (mkWorld (files w) (heap w ++ trace rs cells)
               (stdout w ++ [Plain no_duplicates_message]), Ret tt)
    else
      (mkWorld (files w)
               (heap w ++ trace rs cells ++ [OFrame (report_frame cells)])
               (stdout w ++ [Plain (header_line (length (duplicates cells)));
                             Rendered (report_frame cells)]), Ret tt).
Proof.
  intros Hfile Hcol. destruct w as [fs h out]. cbn [files heap stdout] in *.
  unfold find_duplicate_emp_ids, try_except, read_json. cbn [files].
  rewrite Hfile. unfold alloc at 1. cbn [files heap stdout].
  run_step frame_getitem_run; [| fresh_at 0 | exact Hcol].
  run_step series_value_counts_run; [| fresh_at 1].
  run_step series_gt_scalar_run; [| fresh_at 2].
  run_step series_getitem_run;
    [| fresh_at 2 | fresh_at 3 | unfold series_gt; by rewrite length_fmap].
  run_step series_empty_run; [| fresh_at 4].
  fold (duplicates cells).
  destruct (bool_decide (length (duplicates cells) = 0)); [done|].
  run_step series_len_run; [| fresh_at 4].
  unfold print at 1.
  erewrite bind_ret; [| reflexivity]. cbn [files heap stdout].
  run_step series_reset_index_run; [| fresh_at 4].
  run_step frame_set_columns_run; [| fresh_at 5 | reflexivity].
  rewrite (insert_fresh _ _ _ 5) by (rewrite ?length_app; cbn [length]; lia). cbn [list_insert insert].
  run_step frame_to_markdown_run; [| fresh_at 5].
  unfold print. cbn [files heap stdout]. reflexivity.
Qed.

Lemma run_missing w path :
  files w !! path = None →
  find_duplicate_emp_ids path w =
    (mkWorld (files w) (heap w) (stdout w ++ [Plain (not_found_message path)]),
     Ret tt).
Proof.
  intros Hfile. unfold find_duplicate_emp_ids, try_except, read_json.
  by rewrite Hfile.
Qed.

Lemma run_unreadable w path :
  files w !! path = Some Unreadable →
  find_duplicate_emp_ids path w = (w, Raise OSError).
Proof.
  intros Hfile. unfold find_duplicate_emp_ids, try_except, read_json.
  by rewrite Hfile.
Qed.

Lemma run_unparsable w path :
  files w !! path = Some Unparsable →
  find_duplicate_emp_ids path w = (w, Raise ValueError).
Proof.
  intros Hfile. unfold find_duplicate_emp_ids, try_except, read_json.
  by rewrite Hfile.
Qed.

Lemma run_no_column w path rs :
  files w !! path = Some (JsonRecords rs) →
  getitem_column (from_records rs) "EMP ID" = None →
  find_duplicate_emp_ids path w =
    (mkWorld (files w) (heap w ++ [OFrame (from_records rs)]) (stdout w),
     Raise (KeyError "EMP ID")).
Proof.
  intros Hfile Hcol. destruct w as [fs h out]. cbn [files heap stdout] in *.
  unfold find_duplicate_emp_ids, try_except, read_json. cbn [files].
  rewrite Hfile. unfold alloc at 1. cbn [files heap stdout].
  erewrite bind_raise; [reflexivity|].
  erewrite frame_getitem_KeyError; [reflexivity | fresh_at 0 | exact Hcol].
Qed.

End run.

(** * Properties of the report *)

Section report.

Implicit Types (w : World) (path : string) (rs : list record)
  (cells : list value) (v : value).

Lemma prints_inj path w out out' :
  prints path w out → prints path w out' → out = out'.
Proof. unfold prints. intros ->. apply app_inv_head. Qed.

Lemma loaded_run w path rs cells :
  files w !! path = Some (JsonRecords rs) →
  getitem_column (from_records rs) "EMP ID" = Some cells →
  returns path w ∧ prints path w (report cells) ∧
  files (find_duplicate_emp_ids path w).1 = files w ∧
  creates path w 0 (OFrame (from_records rs)) ∧
  creates path w 2 (OCounts "EMP ID" (value_counts cells)) ∧
  creates path w 4 (OCounts "EMP ID" (duplicates cells)).
Proof.
  intros Hfile Hcol. unfold returns, prints, creates, report.
  rewrite (run_loaded w path rs cells Hfile Hcol).
  destruct (bool_decide (length (duplicates cells) = 0));
    cbn [fst snd files heap stdout];
    (repeat split; try done; by apply (lookup_fresh _ _ _ _ _ eq_refl)).
Qed.

Lemma rows_report_frame cells :
  rows (report_frame cells) =
    (λ e, [e.1; count_cell e.2]) <$> duplicates cells.
Proof.
  unfold rows, report_frame. cbn [frame_data fmap list_fmap snd].
  induction (duplicates cells) as [|[u n] tbl IH]; [done|].
  cbn [fmap list_fmap fst snd frame_rows zip_with] in *. by rewrite IH.
Qed.

Lemma elem_of_rows_report v n cells :
  [v; count_cell n] ∈ rows (report_frame cells) ↔ (v, n) ∈ duplicates cells.
Proof.
  rewrite rows_report_frame, list_elem_of_fmap. split.
  - intros ([u m] & Heq & Hin). cbn in Heq. unfold count_cell in Heq.
    injection Heq as -> Hm. by apply Nat2Z.inj in Hm as ->.
  - intros Hin. by exists (v, n).
Qed.

Lemma duplicates_nil cells :
  (∀ v, v ∈ cells → v ≠ VNull → occurrences v cells ≤ 1) → duplicates cells = [].
Proof.
  intros Hone. apply elem_of_nil_inv. intros [v n].
  rewrite elem_of_duplicates. intros (Hv & Hn & ->).
  assert (v ∈ cells) as Hin by (apply occurrences_pos; lia).
  specialize (Hone v Hin Hv). lia.
Qed.

Lemma report_nil cells : duplicates cells = [] → report cells = [Plain no_duplicates_message].
Proof. intros Hd. unfold report. by rewrite Hd. Qed.

Lemma report_cons cells :
  duplicates cells ≠ [] →
  report cells = [Plain (header_line (length (duplicates cells)));
                  Rendered (report_frame cells)].
Proof.
  intros Hd. unfold report. rewrite bool_decide_false; [done|].
  by intros ?%nil_length_inv.
Qed.

Lemma keys_duplicates v cells :
  v ∈ (duplicates cells).*1 ↔ v ≠ VNull ∧ 1 < occurrences v cells.
Proof.
  rewrite list_elem_of_fmap. split.
  - intros ([u n] & -> & (Hu & Hn & ->)%elem_of_duplicates). done.
  - intros [Hv Hn]. exists (v, occurrences v cells). split; [done|].
    by apply elem_of_duplicates.
Qed.

Lemma length_duplicates cells :
  length (duplicates cells) = length (duplicated_values cells).
Proof.
  rewrite <- (length_fmap fst). apply Permutation_length, NoDup_Permutation.
  - apply NoDup_duplicates.
  - apply NoDup_remove_dups.
  - intros v. unfold duplicated_values.
    rewrite keys_duplicates, elem_of_remove_dups, list_elem_of_filter.
    split; [|tauto]. intros [Hv Hn]. repeat split; try done.
    apply occurrences_pos. lia.
Qed.

Lemma occurrences_cells c v rs :
  occurrences v (cell c <$> rs) = length (filter (λ r, cell c r = v) rs).
Proof.
  induction rs as [|r rs IH]; [done|].
  cbn [fmap list_fmap]. rewrite occurrences_cons, filter_cons, IH.
  by case_decide.
Qed.

Lemma filter_notna_cells c rs :
  filter (λ x, notna x) (cell c <$> rs) =
    cell c <$> filter (λ r, cell c r ≠ VNull) rs.
Proof.
  induction rs as [|r rs IH]; [done|].
  cbn [fmap list_fmap]. rewrite !filter_cons, IH.
  destruct (cell c r) eqn:Hc; cbn [notna isna negb]; case_decide;
    try done; case_decide; try done; cbn [fmap list_fmap]; by rewrite ?Hc.
Qed.

Lemma filter_all {A} (P : A → Prop) `{∀ x, Decision (P x)} (l : list A) :
  (∀ x, x ∈ l → P x) → filter P l = l.
Proof.
  induction l as [|x l IH]; [done|]. intros Hall.
  rewrite filter_cons_True by (apply Hall; by left).
  f_equal. apply IH. intros y Hy. apply Hall. by right.
Qed.

(** A table is printed only by a run that found the column, and it is
    the frame built from the kept entries. *)
Lemma rendered_inv w path out table :
  prints path w out → Rendered table ∈ out →
  ∃ rs cells,
    files w !! path = Some (JsonRecords rs) ∧
    getitem_column (from_records rs) "EMP ID" = Some cells ∧
    table = report_frame cells.
Proof.
  unfold prints. intros Hout Hin.
  destruct (files w !! path) as [[| |rs]|] eqn:Hfile.
  - rewrite (run_unreadable w path Hfile) in Hout. cbn [fst] in Hout.
    rewrite <- (app_nil_r (stdout w)) in Hout at 1.
    apply app_inv_head in Hout as <-. by apply elem_of_nil in Hin.
  - rewrite (run_unparsable w path Hfile) in Hout. cbn [fst] in Hout.
    rewrite <- (app_nil_r (stdout w)) in Hout at 1.
    apply app_inv_head in Hout as <-. by apply elem_of_nil in Hin.
  - destruct (getitem_column (from_records rs) "EMP ID") as [cells|] eqn:Hcol.
    + exists rs, cells. repeat split; try done.
      destruct (loaded_run w path rs cells Hfile Hcol) as (_ & Hout' & _).
      unfold prints in Hout'. rewrite Hout in Hout'.
      apply app_inv_head in Hout' as ->. unfold report in Hin.
      case_bool_decide.
      * apply list_elem_of_singleton in Hin. discriminate.
      * apply elem_of_cons in Hin as [?|Hin]; [discriminate|].
        apply list_elem_of_singleton in Hin. congruence.
    + rewrite (run_no_column w path rs Hfile Hcol) in Hout.
      cbn [fst stdout] in Hout.
      rewrite <- (app_nil_r (stdout w)) in Hout at 1.
      apply app_inv_head in Hout as <-. by apply elem_of_nil in Hin.
  - rewrite (run_missing w path Hfile) in Hout. cbn [fst stdout] in Hout.
    apply app_inv_head in Hout as <-.
    apply list_elem_of_singleton in Hin. discriminate.
Qed.

(** C2, as stated, fails on a collection without the column.  In the
    empty collection, and in the one record [{"X":1}], no "EMP ID" value
    occurs more than once (there is none in the first, and the second has
    the one missing value), yet the run prints no line at all: it ends in
    [KeyError "EMP ID"]. *)
Lemma no_column_no_message :
  let w0 := world_of (JsonRecords []) in
  let w1 := world_of (JsonRecords [{[ "X" := VNum 1 ]}]) in
  (∀ v, v ∈ cell "EMP ID" <$> ([] : list record) →
        occurrences v (cell "EMP ID" <$> ([] : list record)) = 1) ∧
  (∀ v, v ∈ cell "EMP ID" <$> [({[ "X" := VNum 1 ]} : record)] →
        occurrences v (cell "EMP ID" <$> [({[ "X" := VNum 1 ]} : record)]) = 1) ∧
  raises file_name w0 (KeyError "EMP ID") ∧ prints file_name w0 [] ∧
  raises file_name w1 (KeyError "EMP ID") ∧ prints file_name w1 [] ∧
  ¬ (returns file_name w0 ∧ prints file_name w0 [Plain no_duplicates_message]) ∧
  ¬ (returns file_name w1 ∧ prints file_name w1 [Plain no_duplicates_message]).
Proof.
  intros w0 w1.
  assert (raises file_name w0 (KeyError "EMP ID")) as Hr0 by reflexivity.
  assert (raises file_name w1 (KeyError "EMP ID")) as Hr1 by reflexivity.
  split; [by intros v ?%elem_of_nil|]. split.
  { intros v Hin%list_elem_of_singleton. by subst v. }
  split; [done|]. split; [reflexivity|]. split; [done|].
  split; [reflexivity|].
  unfold returns, raises in *. split; intros [? _]; congruence.
Qed.

(** C2, amended: when the loaded frame has an "EMP ID" column and every
    value in it occurs exactly once, the run returns normally and its
    whole output is the single line "No EMP IDs were found with more than
    one entry in the data." (no header line, no table). *)
Theorem no_duplicates_message_only w path rs cells :
  files w !! path = Some (JsonRecords rs) →
  getitem_column (from_records rs) "EMP ID" = Some cells →
  (∀ v, v ∈ cells → occurrences v cells = 1) →
  returns path w ∧ prints path w [Plain no_duplicates_message].
Proof.
  intros Hfile Hcol Hone.
  destruct (loaded_run w path rs cells Hfile Hcol) as (Hret & Hout & _).
  split; [done|]. rewrite report_nil in Hout; [done|].
  apply duplicates_nil. intros v Hin _. by rewrite Hone.
Qed.

Lemma no_duplicates_message_only_witness :
  returns file_name (world_of (JsonRecords [emp (VStr "A"); emp (VStr "B")])) ∧
  prints file_name (world_of (JsonRecords [emp (VStr "A"); emp (VStr "B")]))
    [Plain no_duplicates_message].
Proof.
  apply (no_duplicates_message_only _ _ [emp (VStr "A"); emp (VStr "B")]
           [VStr "A"; VStr "B"]).
  - reflexivity.
  - reflexivity.
  - intros v Hin. repeat (apply elem_of_cons in Hin as [->|Hin]; [reflexivity|]).
    by apply elem_of_nil in Hin.
Defined.

(** C4: when the path names no file, the [FileNotFoundError] of
    [read_json] is caught: the run returns normally, prints the one line
    "Error: File '<path>' not found.", creates no object (no frequency
    table, no table to render) and leaves the files as they were. *)
Theorem missing_file_reported w path :
  files w !! path = None →
  returns path w ∧ prints path w [Plain (not_found_message path)] ∧
  heap (find_duplicate_emp_ids path w).1 = heap w ∧
  files (find_duplicate_emp_ids path w).1 = files w.
Proof.
  intros Hfile. unfold returns, prints. by rewrite (run_missing w path Hfile).
Qed.

Lemma missing_file_reported_witness :
  returns file_name empty_world ∧
  prints file_name empty_world
    [Plain "Error: File 'membercsvjson.json' not found."] ∧
  heap (find_duplicate_emp_ids file_name empty_world).1 = [] ∧
  files (find_duplicate_emp_ids file_name empty_world).1 = ∅.
Proof. apply (missing_file_reported empty_world file_name). reflexivity. Defined.

(** C6: on the records [{"EMP ID":"A"},{"EMP ID":"A"},{"EMP ID":"B"}] the
    run prints the header "--- EMP IDs with more than 1 entry (1 IDs
    found) ---" and then one table whose columns are "EMP ID" and "Count
    of Entries" and whose only row is A with count 2. *)
Theorem example_report w path :
  files w !! path =
    Some (JsonRecords [emp (VStr "A"); emp (VStr "A"); emp (VStr "B")]) →
  returns path w ∧
  ∃ table,
    prints path w
      [Plain "--- EMP IDs with more than 1 entry (1 IDs found) ---";
       Rendered table] ∧
    columns table = ["EMP ID"; "Count of Entries"] ∧
    rows table = [[VStr "A"; VNum 2]].
Proof.
  intros Hfile.
  destruct (loaded_run w path _ [VStr "A"; VStr "A"; VStr "B"] Hfile eq_refl)
    as (Hret & Hout & _).
  split; [done|]. exists (report_frame [VStr "A"; VStr "A"; VStr "B"]).
  split; [exact Hout|]. split; reflexivity.
Qed.

Lemma example_report_witness :
  returns file_name
    (world_of (JsonRecords [emp (VStr "A"); emp (VStr "A"); emp (VStr "B")])) ∧
  ∃ table,
    prints file_name
      (world_of (JsonRecords [emp (VStr "A"); emp (VStr "A"); emp (VStr "B")]))
      [Plain "--- EMP IDs with more than 1 entry (1 IDs found) ---";
       Rendered table] ∧
    columns table = ["EMP ID"; "Count of Entries"] ∧
    rows table = [[VStr "A"; VNum 2]].
Proof. apply (example_report _ file_name). reflexivity. Defined.

(** C1, as stated, fails on null values: with the records
    [{"EMP ID":null},{"EMP ID":null},{"EMP ID":"A"}] (which [read_json]
    loads as they are spelled) the value null occurs twice in the column,
    yet the run prints only the "no duplicates" line, so no report pairs
    null with the count 2. *)
Lemma null_duplicate_not_reported :
  let rs := [emp VNull; emp VNull; emp (VStr "A")] in
  let cells := [VNull; VNull; VStr "A"] in
  let w := world_of (JsonRecords rs) in
  files w !! file_name = Some (JsonRecords rs) ∧
  getitem_column (from_records rs) "EMP ID" = Some cells ∧
  occurrences VNull cells = 2 ∧
  prints file_name w [Plain no_duplicates_message] ∧
  ¬ ∃ n table,
      prints file_name w [Plain (header_line n); Rendered table] ∧
      [VNull; count_cell 2] ∈ rows table.
Proof.
  intros rs cells w.
  assert (prints file_name w [Plain no_duplicates_message]) as Hout
    by reflexivity.
  repeat split; try reflexivity.
  intros (n & table & Hout' & _).
  by pose proof (prints_inj _ _ _ _ Hout Hout').
Qed.

(** C1, amended: when a non-null value [v] occurs [k > 1] times in the
    "EMP ID" column of the loaded frame, the run returns normally and
    prints a header line followed by one table with columns "EMP ID" and
    "Count of Entries"; the table has a row pairing [v] with [k] and no
    row pairing [v] with another count; and the number stated in the
    header is the number of distinct non-null values that occur more than
    once in that column.  The values are the loaded ones: two strings
    that [read_json] loads as the same number are one value here, and a
    string it loads as NaN is null. *)
Theorem duplicate_reported_with_count w path rs cells v k :
  files w !! path = Some (JsonRecords rs) →
  getitem_column (from_records rs) "EMP ID" = Some cells →
  v ≠ VNull → occurrences v cells = k → 1 < k →
  returns path w ∧
  ∃ table,
    prints path w
      [Plain (header_line (length (duplicated_values cells))); Rendered table] ∧
    columns table = ["EMP ID"; "Count of Entries"] ∧
    [v; count_cell k] ∈ rows table ∧
    (∀ k', [v; count_cell k'] ∈ rows table → k' = k).
Proof.
  intros Hfile Hcol Hv Hk Hgt.
  destruct (loaded_run w path rs cells Hfile Hcol) as (Hret & Hout & _).
  assert ((v, k) ∈ duplicates cells) as Hin by by apply elem_of_duplicates.
  split; [done|]. exists (report_frame cells).
  rewrite report_cons, length_duplicates in Hout
    by (intros Hnil; rewrite Hnil in Hin; by apply elem_of_nil in Hin).
  repeat split; [done | by apply elem_of_rows_report |].
  intros k' (_ & _ & ->)%elem_of_rows_report%elem_of_duplicates. done.
Qed.

Lemma duplicate_reported_with_count_witness :
  returns file_name
    (world_of (JsonRecords [emp (VStr "A"); emp (VStr "A"); emp (VStr "B")])) ∧
  ∃ table,
    prints file_name
      (world_of (JsonRecords [emp (VStr "A"); emp (VStr "A"); emp (VStr "B")]))
      [Plain (header_line 1); Rendered table] ∧
    columns table = ["EMP ID"; "Count of Entries"] ∧
    [VStr "A"; count_cell 2] ∈ rows table ∧
    (∀ k', [VStr "A"; count_cell k'] ∈ rows table → k' = 2).
Proof.
  apply (duplicate_reported_with_count _ file_name
           [emp (VStr "A"); emp (VStr "A"); emp (VStr "B")]
           [VStr "A"; VStr "A"; VStr "B"] (VStr "A") 2);
    [reflexivity | reflexivity | discriminate | reflexivity | lia].
Defined.

(** C3, as stated, fails on its second half: of the two records
    [{"EMP ID":"A"},{"EMP ID":null}] (loaded as they are spelled) only
    the first is counted, so the counts of the frequency table sum to 1,
    not to the 2 records read. *)
Lemma counts_sum_below_record_count :
  let rs := [emp (VStr "A"); emp VNull] in
  let w := world_of (JsonRecords rs) in
  files w !! file_name = Some (JsonRecords rs) ∧
  creates file_name w 2 (OCounts "EMP ID" [(VStr "A", 1)]) ∧
  total [(VStr "A", 1)] = 1 ∧
  length rs = 2 ∧
  total [(VStr "A", 1)] ≠ length rs.
Proof. repeat split; try reflexivity. cbn. lia. Qed.

(** C3, amended: the frequency table the run builds from the "EMP ID"
    column of the loaded frame holds, for each of its keys, the number of
    loaded records that carry that value, and every non-null value some
    loaded record carries is a key; the sum of its counts is the number
    of records whose loaded "EMP ID" is not null, hence the number of
    records read when none is null.  [rs] are the records as loaded, so
    a value is what the cell holds after the dtype inference of
    [read_json]. *)
Theorem frequency_table_counts w path rs cells :
  files w !! path = Some (JsonRecords rs) →
  getitem_column (from_records rs) "EMP ID" = Some cells →
  ∃ id_counts,
    creates path w 2 (OCounts "EMP ID" id_counts) ∧
    (∀ v n, (v, n) ∈ id_counts →
       n = length (filter (λ r, cell "EMP ID" r = v) rs)) ∧
    (∀ r, r ∈ rs → cell "EMP ID" r ≠ VNull →
       cell "EMP ID" r ∈ id_counts.*1) ∧
    NoDup id_counts.*1 ∧
    total id_counts = length (filter (λ r, cell "EMP ID" r ≠ VNull) rs) ∧
    ((∀ r, r ∈ rs → cell "EMP ID" r ≠ VNull) → total id_counts = length rs).
Proof.
  intros Hfile Hcol.
  destruct (loaded_run w path rs cells Hfile Hcol) as (_ & _ & _ & _ & Hc & _).
  apply getitem_column_inv in Hcol as ->.
  exists (value_counts (cell "EMP ID" <$> rs)).
  assert (total (value_counts (cell "EMP ID" <$> rs)) =
          length (filter (λ r, cell "EMP ID" r ≠ VNull) rs)) as Htotal.
  { by rewrite total_value_counts, filter_notna_cells, length_fmap. }
  repeat split; [done | | | apply NoDup_value_counts | done |].
  - intros v n (_ & _ & ->)%elem_of_value_counts. apply occurrences_cells.
  - intros r Hr Hv. apply keys_value_counts. split; [done|].
    by apply list_elem_of_fmap_2.
  - intros Hall. rewrite Htotal. f_equal. by apply filter_all.
Qed.

Lemma frequency_table_counts_witness :
  ∃ id_counts,
    creates file_name
      (world_of (JsonRecords [emp (VStr "A"); emp (VStr "A"); emp (VStr "B")]))
      2 (OCounts "EMP ID" id_counts) ∧
    (∀ v n, (v, n) ∈ id_counts →
       n = length (filter (λ r, cell "EMP ID" r = v)
                     [emp (VStr "A"); emp (VStr "A"); emp (VStr "B")])) ∧
    (∀ r, r ∈ [emp (VStr "A"); emp (VStr "A"); emp (VStr "B")] →
       cell "EMP ID" r ≠ VNull → cell "EMP ID" r ∈ id_counts.*1) ∧
    NoDup id_counts.*1 ∧
    total id_counts =
      length (filter (λ r, cell "EMP ID" r ≠ VNull)
                [emp (VStr "A"); emp (VStr "A"); emp (VStr "B")]) ∧
    ((∀ r, r ∈ [emp (VStr "A"); emp (VStr "A"); emp (VStr "B")] →
        cell "EMP ID" r ≠ VNull) → total id_counts = 3).
Proof.
  apply (frequency_table_counts _ file_name
           [emp (VStr "A"); emp (VStr "A"); emp (VStr "B")]
           [VStr "A"; VStr "A"; VStr "B"]); reflexivity.
Defined.

(** C5: the series the run keeps for reporting is the frequency table
    restricted to the entries with a count above 1: it is that filter of
    the table, the printed table has exactly its entries as rows, an
    identifier that the frequency table counts once is not among its
    keys, and when it is empty the run still returns normally, printing
    the "no duplicates" line. *)
Theorem kept_entries_have_count_above_one w path rs cells :
  files w !! path = Some (JsonRecords rs) →
  getitem_column (from_records rs) "EMP ID" = Some cells →
  ∃ id_counts duplicate_ids,
    creates path w 2 (OCounts "EMP ID" id_counts) ∧
    creates path w 4 (OCounts "EMP ID" duplicate_ids) ∧
    duplicate_ids = filter (λ e, 1 < e.2) id_counts ∧
    (∀ e, e ∈ duplicate_ids ↔ e ∈ id_counts ∧ 1 < e.2) ∧
    (∀ v, (v, 1) ∈ id_counts → v ∉ duplicate_ids.*1) ∧
    returns path w ∧
    (duplicate_ids = [] → prints path w [Plain no_duplicates_message]) ∧
    (duplicate_ids ≠ [] →
       ∃ table,
         prints path w
           [Plain (header_line (length duplicate_ids)); Rendered table] ∧
         rows table = (λ e, [e.1; count_cell e.2]) <$> duplicate_ids).
Proof.
  intros Hfile Hcol.
  destruct (loaded_run w path rs cells Hfile Hcol)
    as (Hret & Hout & _ & _ & Hc & Hd).
  exists (value_counts cells), (duplicates cells).
  split; [done|]. split; [done|]. split; [apply duplicates_filter|].
  split; [intros e; rewrite duplicates_filter, list_elem_of_filter; tauto|].
  split.
  { intros v Hone (e & -> & He)%list_elem_of_fmap.
    rewrite duplicates_filter in He. apply list_elem_of_filter in He as [Hn He].
    destruct e as [v n]. cbn in *.
    pose proof (count_of_elem_of _ _ _ (NoDup_value_counts cells) Hone).
    pose proof (count_of_elem_of _ _ _ (NoDup_value_counts cells) He). lia. }
  split; [done|]. split.
  - intros Hnil. by rewrite report_nil in Hout.
  - intros Hne. exists (report_frame cells).
    rewrite report_cons in Hout by done. split; [done|].
    apply rows_report_frame.
Qed.

Lemma kept_entries_have_count_above_one_witness :
  ∃ id_counts duplicate_ids,
    creates file_name
      (world_of (JsonRecords [emp (VStr "A"); emp (VStr "A"); emp (VStr "B")]))
      2 (OCounts "EMP ID" id_counts) ∧
    creates file_name
      (world_of (JsonRecords [emp (VStr "A"); emp (VStr "A"); emp (VStr "B")]))
      4 (OCounts "EMP ID" duplicate_ids) ∧
    duplicate_ids = filter (λ e, 1 < e.2) id_counts ∧
    (∀ e, e ∈ duplicate_ids ↔ e ∈ id_counts ∧ 1 < e.2) ∧
    (∀ v, (v, 1) ∈ id_counts → v ∉ duplicate_ids.*1) ∧
    returns file_name
      (world_of (JsonRecords [emp (VStr "A"); emp (VStr "A"); emp (VStr "B")])) ∧
    (duplicate_ids = [] →
       prints file_name
         (world_of (JsonRecords [emp (VStr "A"); emp (VStr "A"); emp (VStr "B")]))
         [Plain no_duplicates_message]) ∧
    (duplicate_ids ≠ [] →
       ∃ table,
         prints file_name
           (world_of
              (JsonRecords [emp (VStr "A"); emp (VStr "A"); emp (VStr "B")]))
           [Plain (header_line (length duplicate_ids)); Rendered table] ∧
         rows table = (λ e, [e.1; count_cell e.2]) <$> duplicate_ids).
Proof.
  apply (kept_entries_have_count_above_one _ file_name
           [emp (VStr "A"); emp (VStr "A"); emp (VStr "B")]
           [VStr "A"; VStr "A"; VStr "B"]); reflexivity.
Defined.

(** C7: the rows of a printed table come in descending order of count:
    any two adjacent rows are an identifier with its count each, and the
    count of the earlier row is at least the count of the later one. *)
Theorem report_rows_descending w path out table i row row' :
  prints path w out → Rendered table ∈ out →
  rows table !! i = Some row → rows table !! S i = Some row' →
  ∃ v n v' n',
    row = [v; count_cell n] ∧ row' = [v'; count_cell n'] ∧ n' ≤ n.
Proof.
  intros Hout Hin Hi HSi.
  destruct (rendered_inv w path out table Hout Hin) as (rs & cells & _ & _ & ->).
  rewrite rows_report_frame in Hi, HSi.
  apply list_lookup_fmap_Some in Hi as ([v n] & -> & Hi).
  apply list_lookup_fmap_Some in HSi as ([v' n'] & -> & HSi).
  exists v, n, v', n'. repeat split.
  apply (Sorted_adjacent count_ge (duplicates cells) i (v, n) (v', n'));
    [|done..].
  apply StronglySorted_Sorted, Sorted_duplicates.
Qed.

Lemma report_rows_descending_witness :
  ∃ v n v' n',
    [VStr "B"; VNum 3] = [v; count_cell n] ∧
    [VStr "A"; VNum 2] = [v'; count_cell n'] ∧ n' ≤ n.
Proof.
  apply (report_rows_descending
           (world_of (JsonRecords [emp (VStr "A"); emp (VStr "A");
                                   emp (VStr "B"); emp (VStr "B");
                                   emp (VStr "B")]))
           file_name
           [Plain (header_line 2);
            Rendered (mkDataFrame [("EMP ID", [VStr "B"; VStr "A"]);
                                   ("Count of Entries", [VNum 3; VNum 2])])]
           (mkDataFrame [("EMP ID", [VStr "B"; VStr "A"]);
                         ("Count of Entries", [VNum 3; VNum 2])])
           0).
  - reflexivity.
  - apply list_elem_of_further, list_elem_of_here.
  - reflexivity.
  - reflexivity.
Defined.

(** C8, as stated, fails where only some records lack the field: with
    the records [{"EMP ID":"A"},{"X":1}] the second record has no
    "EMP ID", yet the run raises nothing: it returns normally and prints
    the "no duplicates" line. *)
Lemma partly_missing_field_is_no_error :
  let rs := [emp (VStr "A"); {[ "X" := VNum 1 ]}] in
  let w := world_of (JsonRecords rs) in
  files w !! file_name = Some (JsonRecords rs) ∧
  (∃ r, r ∈ rs ∧ r !! "EMP ID" = None) ∧
  returns file_name w ∧
  prints file_name w [Plain no_duplicates_message] ∧
  ¬ ∃ e, raises file_name w e.
Proof.
  intros rs w. split; [reflexivity|]. split.
  { exists {[ "X" := VNum 1 ]}. split; [|reflexivity].
    apply list_elem_of_further, list_elem_of_here. }
  assert (returns file_name w) as Hret by reflexivity.
  split; [done|]. split; [reflexivity|].
  intros [e He]. unfold returns, raises in *. congruence.
Qed.

(** C8, amended: when [read_json] rejects the content of the file, or
    the file holds a record collection in which no record has the
    "EMP ID" field (the empty collection included), the failure is not
    caught: the run ends in an exception other than file-not-found
    ([ValueError], respectively [KeyError "EMP ID"]) and has printed
    nothing. *)
Theorem unhandled_failures_propagate w path :
  files w !! path = Some Unparsable ∨
  (∃ rs, files w !! path = Some (JsonRecords rs) ∧
         ∀ r, r ∈ rs → r !! "EMP ID" = None) →
  ∃ e,
    raises path w e ∧ is_FileNotFoundError e = false ∧ prints path w [] ∧
    (files w !! path = Some Unparsable → e = ValueError) ∧
    (files w !! path ≠ Some Unparsable → e = KeyError "EMP ID").
Proof.
  unfold raises, prints. intros [Hfile|(rs & Hfile & Hno)].
  - exists ValueError. rewrite (run_unparsable w path Hfile).
    cbn [fst snd]. by rewrite app_nil_r.
  - exists (KeyError "EMP ID").
    rewrite (run_no_column w path rs Hfile (getitem_column_None _ _ Hno)).
    cbn [fst snd stdout]. rewrite app_nil_r, Hfile. done.
Qed.

Lemma unhandled_failures_propagate_witness :
  ∃ e,
    raises file_name (world_of (JsonRecords [])) e ∧
    is_FileNotFoundError e = false ∧
    prints file_name (world_of (JsonRecords [])) [] ∧
    (files (world_of (JsonRecords [])) !! file_name = Some Unparsable →
       e = ValueError) ∧
    (files (world_of (JsonRecords [])) !! file_name ≠ Some Unparsable →
       e = KeyError "EMP ID").
Proof.
  apply (unhandled_failures_propagate (world_of (JsonRecords [])) file_name).
  right. exists []. split; [reflexivity|].
  intros r Hr. by apply elem_of_nil in Hr.
Defined.

(** C9: a run changes nothing but standard output.  The files are the
    same afterwards; standard output is its old content followed by what
    the run printed; every object that existed before is unchanged; and
    the frame loaded from the file, the first object the run creates, is
    at the end still the frame built from the records read. *)
Theorem only_stdout_changes w path :
  files (find_duplicate_emp_ids path w).1 = files w ∧
  (∃ out, stdout (find_duplicate_emp_ids path w).1 = stdout w ++ out) ∧
  (∃ objs, heap (find_duplicate_emp_ids path w).1 = heap w ++ objs) ∧
  match files w !! path with
  | Some (JsonRecords rs) =>
      heap (find_duplicate_emp_ids path w).1 !! length (heap w) =
        Some (OFrame (from_records rs))
  | _ => heap (find_duplicate_emp_ids path w).1 = heap w
  end.
Proof.
  destruct (files w !! path) as [[| |rs]|] eqn:Hfile.
  - rewrite (run_unreadable w path Hfile). cbn [fst].
    repeat split; [by exists []; rewrite app_nil_r..].
  - rewrite (run_unparsable w path Hfile). cbn [fst].
    repeat split; [by exists []; rewrite app_nil_r..].
  - destruct (getitem_column (from_records rs) "EMP ID") as [cells|] eqn:Hcol.
    + rewrite (run_loaded w path rs cells Hfile Hcol).
      destruct (bool_decide (length (duplicates cells) = 0));
        cbn [fst files heap stdout];
        (repeat split; [by eexists.. | by apply list_lookup_middle]).
    + rewrite (run_no_column w path rs Hfile Hcol). cbn [fst files heap stdout].
      repeat split; [by exists []; rewrite app_nil_r | by eexists |].
      by apply list_lookup_middle.
  - rewrite (run_missing w path Hfile). cbn [fst files heap stdout].
    repeat split; [by eexists | by exists []; rewrite app_nil_r].
Qed.

(** C10: records whose "EMP ID" is null or absent are left out of the
    frequency table.  Null is not one of its keys; its counts sum to no
    more than the number of records whose "EMP ID" is not null, so the
    null rows are counted nowhere; no printed row has null as its
    identifier; and if there is a null row the counts of the table sum to
    less than the number of records read. *)
Theorem null_ids_not_counted w path rs cells :
  files w !! path = Some (JsonRecords rs) →
  getitem_column (from_records rs) "EMP ID" = Some cells →
  ∃ id_counts,
    creates path w 2 (OCounts "EMP ID" id_counts) ∧
    (VNull ∉ id_counts.*1) ∧
    total id_counts ≤ length (filter (λ r, cell "EMP ID" r ≠ VNull) rs) ∧
    (∀ out table row,
       prints path w out → Rendered table ∈ out → row ∈ rows table →
       row !! 0 ≠ Some VNull) ∧
    ((∃ r, r ∈ rs ∧ cell "EMP ID" r = VNull) → total id_counts < length rs).
Proof.
  intros Hfile Hcol.
  destruct (loaded_run w path rs cells Hfile Hcol) as (_ & _ & _ & _ & Hc & _).
  exists (value_counts cells). split; [done|].
  pose proof (getitem_column_inv _ _ _ Hcol) as ->.
  split; [by intros [? _]%keys_value_counts|].
  split; [by rewrite total_value_counts, filter_notna_cells, length_fmap|].
  split.
  - intros out table row Hout Hin Hrow.
    destruct (rendered_inv w path out table Hout Hin) as (? & cells' & _ & _ & ->).
    rewrite rows_report_frame in Hrow.
    apply list_elem_of_fmap in Hrow as ([v n] & -> & Hvn).
    apply elem_of_duplicates in Hvn as [Hv _]. cbn. congruence.
  - intros (r & Hr & Hnull).
    rewrite total_value_counts, filter_notna_cells, length_fmap.
    apply (length_filter_lt _ _ r); [done|]. by intros ?.
Qed.

Lemma null_ids_not_counted_witness :
  ∃ id_counts,
    creates file_name
      (world_of (JsonRecords [emp (VStr "A"); emp VNull; {[ "X" := VNum 1 ]}]))
      2 (OCounts "EMP ID" id_counts) ∧
    (VNull ∉ id_counts.*1) ∧
    total id_counts ≤
      length (filter (λ r, cell "EMP ID" r ≠ VNull)
                [emp (VStr "A"); emp VNull; {[ "X" := VNum 1 ]}]) ∧
    (∀ out table row,
       prints file_name
         (world_of
            (JsonRecords [emp (VStr "A"); emp VNull; {[ "X" := VNum 1 ]}]))
         out →
       Rendered table ∈ out → row ∈ rows table → row !! 0 ≠ Some VNull) ∧
    ((∃ r, r ∈ [emp (VStr "A"); emp VNull; {[ "X" := VNum 1 ]}] ∧
           cell "EMP ID" r = VNull) →
     total id_counts < 3).
Proof.
  apply (null_ids_not_counted _ file_name
           [emp (VStr "A"); emp VNull; {[ "X" := VNum 1 ]}]
           [VStr "A"; VNull; VNull]); reflexivity.
Defined.

End report.

(** * Further properties of a run *)

Section outcomes.

Implicit Types (w : World) (path : string) (rs : list record)
  (cells : list value) (v : value) (out : list text).

Lemma getitem_column_is_Some c rs :
  is_Some (getitem_column (from_records rs) c) ↔
    ∃ r, r ∈ rs ∧ is_Some (r !! c).
Proof.
  unfold getitem_column, from_records. cbn [frame_data].
  rewrite (assoc_tabulate c (λ c', cell c' <$> rs)), <- elem_of_union_keys.
  case_decide; split; done.
Qed.

Lemma getitem_column_is_None c rs :
  getitem_column (from_records rs) c = None ↔ ∀ r, r ∈ rs → r !! c = None.
Proof.
  split; [|apply getitem_column_None].
  intros Hnone r Hr. destruct (r !! c) as [x|] eqn:Hx; [|done].
  assert (is_Some (getitem_column (from_records rs) c)) as [? Hs].
  { apply getitem_column_is_Some. exists r. split; [done | by eexists]. }
  congruence.
Qed.

Lemma prints_nil_unfold w path :
  stdout (find_duplicate_emp_ids path w).1 = stdout w → prints path w [].
Proof. unfold prints. intros ->. by rewrite app_nil_r. Qed.

Lemma loaded_prints w path rs cells out :
  files w !! path = Some (JsonRecords rs) →
  getitem_column (from_records rs) "EMP ID" = Some cells →
  prints path w out ↔ out = report cells.
Proof.
  intros Hfile Hcol.
  destruct (loaded_run w path rs cells Hfile Hcol) as (_ & Hout & _).
  split; [intros Hout'; by apply (prints_inj path w) | by intros ->].
Qed.

Lemma not_found_is_no_report_line path cells :
  Plain (not_found_message path) ∉ report cells.
Proof.
  unfold report. case_bool_decide.
  - intros Hin%list_elem_of_singleton. discriminate.
  - intros [Hin|Hin%list_elem_of_singleton]%elem_of_cons; discriminate.
Qed.

(** X2: what a run that returns has printed.  It is exactly one of: the
    file-not-found line (and then the file is missing); the "no
    duplicates" line; or a header followed by one table with the columns
    "EMP ID" and "Count of Entries", where the table has at least one row
    and the number in the header is its number of rows. *)
Theorem normal_output_shapes w path :
  returns path w →
  (files w !! path = None ∧ prints path w [Plain (not_found_message path)]) ∨
  (is_Some (files w !! path) ∧ prints path w [Plain no_duplicates_message]) ∨
  (∃ table,
     prints path w
       [Plain (header_line (length (rows table))); Rendered table] ∧
     columns table = ["EMP ID"; "Count of Entries"] ∧
     0 < length (rows table)).
Proof.
  unfold returns. intros Hret.
  destruct (files w !! path) as [[| |rs]|] eqn:Hfile.
  - by rewrite (run_unreadable w path Hfile) in Hret.
  - by rewrite (run_unparsable w path Hfile) in Hret.
  - destruct (getitem_column (from_records rs) "EMP ID") as [cells|] eqn:Hcol.
    + destruct (loaded_run w path rs cells Hfile Hcol) as (_ & Hout & _).
      destruct (decide (duplicates cells = [])) as [Hnil|Hne].
      * right. left. rewrite report_nil in Hout by done. by split; [eexists|].
      * right. right. exists (report_frame cells).
        rewrite report_cons in Hout by done.
        rewrite rows_report_frame, length_fmap. split; [done|].
        split; [done|]. destruct (duplicates cells); [done | cbn; lia].
    + by rewrite (run_no_column w path rs Hfile Hcol) in Hret.
  - left. split; [done|]. unfold prints. by rewrite (run_missing w path Hfile).
Qed.

Lemma normal_output_shapes_witness :
  (files empty_world !! file_name = None ∧
   prints file_name empty_world [Plain (not_found_message file_name)]) ∨
  (is_Some (files empty_world !! file_name) ∧
   prints file_name empty_world [Plain no_duplicates_message]) ∨
  (∃ table,
     prints file_name empty_world
       [Plain (header_line (length (rows table))); Rendered table] ∧
     columns table = ["EMP ID"; "Count of Entries"] ∧
     0 < length (rows table)).
Proof. apply (normal_output_shapes empty_world file_name). reflexivity. Defined.

(** X3: the file-not-found line is printed exactly when the path names
    no file: a file that exists, whatever it holds, never produces it. *)
Theorem not_found_line_iff_missing w path out :
  prints path w out →
  (Plain (not_found_message path) ∈ out ↔ files w !! path = None).
Proof.
  intros Hout. destruct (files w !! path) as [[| |rs]|] eqn:Hfile.
  - assert (out = []) as ->.
    { apply (prints_inj path w); [done|]. apply prints_nil_unfold.
      by rewrite (run_unreadable w path Hfile). }
    split; [by intros ?%elem_of_nil | done].
  - assert (out = []) as ->.
    { apply (prints_inj path w); [done|]. apply prints_nil_unfold.
      by rewrite (run_unparsable w path Hfile). }
    split; [by intros ?%elem_of_nil | done].
  - destruct (getitem_column (from_records rs) "EMP ID") as [cells|] eqn:Hcol.
    + apply (loaded_prints w path rs cells out Hfile Hcol) in Hout as ->.
      split; [|done]. by intros ?%not_found_is_no_report_line.
    + assert (out = []) as ->.
      { apply (prints_inj path w); [done|]. apply prints_nil_unfold.
        by rewrite (run_no_column w path rs Hfile Hcol). }
      split; [by intros ?%elem_of_nil | done].
  - assert (out = [Plain (not_found_message path)]) as ->.
    { apply (prints_inj path w); [done|]. unfold prints.
      by rewrite (run_missing w path Hfile). }
    split; [done|]. intros _. by apply list_elem_of_singleton.
Qed.

Lemma not_found_line_iff_missing_witness :
  Plain (not_found_message file_name) ∈ [Plain no_duplicates_message] ↔
  files (world_of (JsonRecords [emp (VStr "A")])) !! file_name = None.
Proof.
  apply (not_found_line_iff_missing
           (world_of (JsonRecords [emp (VStr "A")])) file_name).
  reflexivity.
Defined.

(** X4: once the "EMP ID" column is found, the "no duplicates" line is
    what the run prints exactly when no non-null value occurs more than
    once in that column of the loaded frame; null cells may repeat.  The
    values are the loaded ones, after the dtype inference of
    [read_json]. *)
Theorem no_duplicates_line_iff w path rs cells :
  files w !! path = Some (JsonRecords rs) →
  getitem_column (from_records rs) "EMP ID" = Some cells →
  (prints path w [Plain no_duplicates_message] ↔
   ∀ v, v ≠ VNull → occurrences v cells ≤ 1).
Proof.
  intros Hfile Hcol. rewrite (loaded_prints w path rs cells _ Hfile Hcol).
  split.
  - intros Hrep v Hv. destruct (decide (occurrences v cells ≤ 1)); [done|].
    assert ((v, occurrences v cells) ∈ duplicates cells) as Hin.
    { apply elem_of_duplicates. repeat split; [done | lia]. }
    rewrite report_cons in Hrep; [discriminate|].
    intros Hnil. rewrite Hnil in Hin. by apply elem_of_nil in Hin.
  - intros Hone. symmetry. apply report_nil, duplicates_nil. auto.
Qed.

Lemma no_duplicates_line_iff_witness :
  prints file_name
    (world_of (JsonRecords [emp VNull; emp VNull; emp (VStr "A")]))
    [Plain no_duplicates_message] ↔
  ∀ v, v ≠ VNull → occurrences v [VNull; VNull; VStr "A"] ≤ 1.
Proof.
  apply (no_duplicates_line_iff _ file_name
           [emp VNull; emp VNull; emp (VStr "A")]); reflexivity.
Defined.

End outcomes.

Section table.

Implicit Types (w : World) (path : string) (rs : list record)
  (cells : list value) (v : value) (out : list text).

(** A printed table is the frame built from the "EMP ID" cells of the
    loaded records. *)
Lemma rendered_from_file w path rs out table :
  files w !! path = Some (JsonRecords rs) →
  prints path w out → Rendered table ∈ out →
  table = report_frame (cell "EMP ID" <$> rs) ∧
  duplicates (cell "EMP ID" <$> rs) ≠ [].
Proof.
  intros Hfile Hout Hin.
  destruct (rendered_inv w path out table Hout Hin)
    as (rs' & cells & Hfile' & Hcol & ->).
  assert (rs' = rs) as -> by congruence.
  apply (loaded_prints w path rs cells out Hfile Hcol) in Hout as ->.
  apply getitem_column_inv in Hcol as ->. split; [done|].
  intros Hnil. rewrite (report_nil _ Hnil) in Hin.
  apply list_elem_of_singleton in Hin. discriminate.
Qed.

(** X5: what a printed table lists.  Its "EMP ID" column holds no
    identifier twice, and its rows are exactly the pairs of a non-null
    value carried by more than one loaded record with the number of
    loaded records that carry it.  [rs] are the records as loaded, so the
    values are those of the cells after the dtype inference of
    [read_json], not the spellings in the file. *)
Theorem table_lists_each_duplicate_once w path rs out table :
  files w !! path = Some (JsonRecords rs) →
  prints path w out → Rendered table ∈ out →
  (∃ ids, getitem_column table "EMP ID" = Some ids ∧ NoDup ids) ∧
  (∀ row, row ∈ rows table ↔
     ∃ v n, row = [v; count_cell n] ∧ v ≠ VNull ∧ 1 < n ∧
            n = length (filter (λ r, cell "EMP ID" r = v) rs)).
Proof.
  intros Hfile Hout Hin.
  destruct (rendered_from_file w path rs out table Hfile Hout Hin) as [-> _].
  split.
  - exists (duplicates (cell "EMP ID" <$> rs)).*1. split; [done|].
    apply NoDup_duplicates.
  - intros row. rewrite rows_report_frame, list_elem_of_fmap. split.
    + intros ([v n] & -> & (Hv & Hn & Hocc)%elem_of_duplicates).
      exists v, n. by rewrite <- occurrences_cells.
    + intros (v & n & -> & Hv & Hn & Hocc). exists (v, n). split; [done|].
      apply elem_of_duplicates. by rewrite occurrences_cells.
Qed.

Lemma table_lists_each_duplicate_once_witness :
  (∃ ids,
     getitem_column
       (mkDataFrame [("EMP ID", [VStr "A"]); ("Count of Entries", [VNum 2])])
       "EMP ID" = Some ids ∧ NoDup ids) ∧
  (∀ row,
     row ∈ rows (mkDataFrame [("EMP ID", [VStr "A"]);
                              ("Count of Entries", [VNum 2])]) ↔
     ∃ v n, row = [v; count_cell n] ∧ v ≠ VNull ∧ 1 < n ∧
            n = length (filter (λ r, cell "EMP ID" r = v)
                          [emp (VStr "A"); emp (VStr "A"); emp (VStr "B")])).
Proof.
  apply (table_lists_each_duplicate_once
           (world_of (JsonRecords [emp (VStr "A"); emp (VStr "A");
                                   emp (VStr "B")]))
           file_name _
           [Plain (header_line 1);
            Rendered (mkDataFrame [("EMP ID", [VStr "A"]);
                                   ("Count of Entries", [VNum 2])])]).
  - reflexivity.
  - reflexivity.
  - apply list_elem_of_further, list_elem_of_here.
Defined.

Lemma total_filter_le (P : value * nat → Prop) `{∀ e, Decision (P e)}
    (tbl : list (value * nat)) :
  total (filter P tbl) ≤ total tbl.
Proof.
  unfold total. induction tbl as [|e tbl IH]; [done|].
  rewrite filter_cons. case_decide; cbn [sum_list_with]; lia.
Qed.

Lemma twice_length_le_total (tbl : list (value * nat)) :
  Forall (λ e, 1 < e.2) tbl → 2 * length tbl ≤ total tbl.
Proof.
  unfold total. induction 1 as [|e tbl He Htbl IH]; [done|].
  cbn [length sum_list_with]. lia.
Qed.

(** X6: a printed table has at most half as many rows as the file has
    records, since each row stands for at least two records and no record
    is counted in two rows. *)
Theorem table_rows_at_most_half_the_records w path rs out table :
  files w !! path = Some (JsonRecords rs) →
  prints path w out → Rendered table ∈ out →
  2 * length (rows table) ≤ length rs.
Proof.
  intros Hfile Hout Hin.
  destruct (rendered_from_file w path rs out table Hfile Hout Hin) as [-> _].
  rewrite rows_report_frame, length_fmap.
  etrans; [apply twice_length_le_total|].
  - rewrite duplicates_filter. apply Forall_forall.
    by intros e [? _]%list_elem_of_filter.
  - rewrite duplicates_filter. etrans; [apply total_filter_le|].
    rewrite total_value_counts.
    etrans; [apply length_filter|]. by rewrite length_fmap.
Qed.

Lemma table_rows_at_most_half_the_records_witness :
  2 * length (rows (mkDataFrame [("EMP ID", [VStr "A"]);
                                 ("Count of Entries", [VNum 2])])) ≤
  length [emp (VStr "A"); emp (VStr "A"); emp (VStr "B")].
Proof.
  apply (table_rows_at_most_half_the_records
           (world_of (JsonRecords [emp (VStr "A"); emp (VStr "A");
                                   emp (VStr "B")]))
           file_name _
           [Plain (header_line 1);
            Rendered (mkDataFrame [("EMP ID", [VStr "A"]);
                                   ("Count of Entries", [VNum 2])])]).
  - reflexivity.
  - reflexivity.
  - apply list_elem_of_further, list_elem_of_here.
Defined.

(** X7: the first row of a printed table carries a most frequent
    identifier: no non-null value of the loaded "EMP ID" column is carried
    by more loaded records than the count in that row.  [rs] are the
    records as loaded, after the dtype inference of [read_json]. *)
Theorem first_row_is_most_frequent w path rs out table v n u :
  files w !! path = Some (JsonRecords rs) →
  prints path w out → Rendered table ∈ out →
  rows table !! 0 = Some [v; count_cell n] →
  u ≠ VNull →
  length (filter (λ r, cell "EMP ID" r = u) rs) ≤ n.
Proof.
  intros Hfile Hout Hin Hrow Hu.
  destruct (rendered_from_file w path rs out table Hfile Hout Hin) as [-> _].
  rewrite <- occurrences_cells. rewrite rows_report_frame in Hrow.
  apply list_lookup_fmap_Some in Hrow as ([v0 n0] & Heq & Hhd).
  cbn in Heq. unfold count_cell in Heq. injection Heq as -> Hn.
  apply Nat2Z.inj in Hn as ->.
  set (cells := cell "EMP ID" <$> rs) in *.
  assert (1 < n0) as Hn0.
  { apply list_elem_of_lookup_2, elem_of_duplicates in Hhd. tauto. }
  destruct (decide (1 < occurrences u cells)) as [Hdup|]; [|lia].
  assert ((u, occurrences u cells) ∈ duplicates cells) as Hmem
    by by apply elem_of_duplicates.
  pose proof (Sorted_duplicates cells) as Hsorted.
  destruct (duplicates cells) as [|e tbl]; [done|].
  injection Hhd as ->. apply StronglySorted_inv in Hsorted as [_ Hall].
  apply elem_of_cons in Hmem as [Heq|Hmem].
  - injection Heq as _ ->. done.
  - by apply (proj1 (Forall_forall _ _) Hall) in Hmem.
Qed.

Lemma first_row_is_most_frequent_witness :
  length (filter (λ r, cell "EMP ID" r = VStr "A")
            [emp (VStr "A"); emp (VStr "A"); emp (VStr "B");
             emp (VStr "B"); emp (VStr "B")]) ≤ 3.
Proof.
  apply (first_row_is_most_frequent
           (world_of (JsonRecords [emp (VStr "A"); emp (VStr "A");
                                   emp (VStr "B"); emp (VStr "B");
                                   emp (VStr "B")]))
           file_name _
           [Plain (header_line 2);
            Rendered (mkDataFrame [("EMP ID", [VStr "B"; VStr "A"]);
                                   ("Count of Entries", [VNum 3; VNum 2])])]
           (mkDataFrame [("EMP ID", [VStr "B"; VStr "A"]);
                         ("Count of Entries", [VNum 3; VNum 2])])
           (VStr "B") 3 (VStr "A")).
  - reflexivity.
  - reflexivity.
  - apply list_elem_of_further, list_elem_of_here.
  - reflexivity.
  - discriminate.
Defined.

End table.

Section dependence.

Implicit Types (w : World) (path : string) (rs : list record)
  (cells : list value) (v : value) (out : list text).

Lemma run_files w path : files (find_duplicate_emp_ids path w).1 = files w.
Proof.
  destruct (files w !! path) as [[| |rs]|] eqn:Hfile.
  - by rewrite (run_unreadable w path Hfile).
  - by rewrite (run_unparsable w path Hfile).
  - destruct (getitem_column (from_records rs) "EMP ID") as [cells|] eqn:Hcol.
    + by destruct (loaded_run w path rs cells Hfile Hcol) as (_ & _ & ? & _).
    + by rewrite (run_no_column w path rs Hfile Hcol).
  - by rewrite (run_missing w path Hfile).
Qed.

(** What a run prints and how it ends, read off the file alone. *)
Lemma run_reads_one_file w w' path :
  files w !! path = files w' !! path →
  (find_duplicate_emp_ids path w).2 = (find_duplicate_emp_ids path w').2 ∧
  ∀ out, prints path w out → prints path w' out.
Proof.
  intros Heq. destruct (files w !! path) as [[| |rs]|] eqn:Hfile; symmetry in Heq.
  - rewrite (run_unreadable w path Hfile), (run_unreadable w' path Heq).
    split; [done|]. intros out Hout.
    assert (out = []) as ->; [|by apply prints_nil_unfold; rewrite (run_unreadable w' path Heq)].
    apply (prints_inj path w); [done|]. apply prints_nil_unfold.
    by rewrite (run_unreadable w path Hfile).
  - rewrite (run_unparsable w path Hfile), (run_unparsable w' path Heq).
    split; [done|]. intros out Hout.
    assert (out = []) as ->; [|by apply prints_nil_unfold; rewrite (run_unparsable w' path Heq)].
    apply (prints_inj path w); [done|]. apply prints_nil_unfold.
    by rewrite (run_unparsable w path Hfile).
  - destruct (getitem_column (from_records rs) "EMP ID") as [cells|] eqn:Hcol.
    + destruct (loaded_run w path rs cells Hfile Hcol) as (Hret & _).
      destruct (loaded_run w' path rs cells Heq Hcol) as (Hret' & _).
      unfold returns in *. split; [congruence|]. intros out.
      by rewrite (loaded_prints w path rs cells out Hfile Hcol),
        (loaded_prints w' path rs cells out Heq Hcol).
    + rewrite (run_no_column w path rs Hfile Hcol),
        (run_no_column w' path rs Heq Hcol).
      split; [done|]. intros out Hout.
      assert (out = []) as ->; [|by apply prints_nil_unfold; rewrite (run_no_column w' path rs Heq Hcol)].
      apply (prints_inj path w); [done|]. apply prints_nil_unfold.
      by rewrite (run_no_column w path rs Hfile Hcol).
  - rewrite (run_missing w path Hfile), (run_missing w' path Heq).
    split; [done|]. intros out Hout.
    assert (out = [Plain (not_found_message path)]) as ->.
    { apply (prints_inj path w); [done|]. unfold prints.
      by rewrite (run_missing w path Hfile). }
    unfold prints. by rewrite (run_missing w' path Heq).
Qed.

(** X8: a run reads no file but the one it is given.  Two worlds that
    hold the same content under [path], whatever their other files, heap
    and earlier output, make the run end the same way and print the same
    lines. *)
Theorem only_the_named_file_is_read w w' path out :
  files w !! path = files w' !! path →
  prints path w out →
  (find_duplicate_emp_ids path w).2 = (find_duplicate_emp_ids path w').2 ∧
  prints path w' out.
Proof.
  intros Heq Hout. destruct (run_reads_one_file w w' path Heq) as [Hres Hp].
  split; [done | by apply Hp].
Qed.

Lemma only_the_named_file_is_read_witness :
  (find_duplicate_emp_ids file_name
     (world_of (JsonRecords [emp (VStr "A"); emp (VStr "A")]))).2 =
  (find_duplicate_emp_ids file_name
     (mkWorld {[ file_name := JsonRecords [emp (VStr "A"); emp (VStr "A")];
                 "other.json" := Unparsable ]}
        [OMask [true]] [Plain "earlier"])).2 ∧
  prints file_name
    (mkWorld {[ file_name := JsonRecords [emp (VStr "A"); emp (VStr "A")];
                "other.json" := Unparsable ]}
       [OMask [true]] [Plain "earlier"])
    [Plain (header_line 1);
     Rendered (mkDataFrame [("EMP ID", [VStr "A"]);
                            ("Count of Entries", [VNum 2])])].
Proof.
  apply (only_the_named_file_is_read
           (world_of (JsonRecords [emp (VStr "A"); emp (VStr "A")]))).
  - reflexivity.
  - reflexivity.
Defined.

(** X9: calling the function again repeats the report.  From the world
    a first call leaves behind, a second call on the same path ends the
    same way and prints the same lines once more. *)
Theorem second_call_repeats_report w path out :
  prints path w out →
  (find_duplicate_emp_ids path (find_duplicate_emp_ids path w).1).2 =
    (find_duplicate_emp_ids path w).2 ∧
  prints path (find_duplicate_emp_ids path w).1 out.
Proof.
  intros Hout.
  destruct (run_reads_one_file w (find_duplicate_emp_ids path w).1 path)
    as [Hres Hp]; [by rewrite run_files|].
  split; [done | by apply Hp].
Qed.

Lemma second_call_repeats_report_witness :
  (find_duplicate_emp_ids file_name
     (find_duplicate_emp_ids file_name
        (world_of (JsonRecords [emp (VStr "A"); emp (VStr "A")]))).1).2 =
  (find_duplicate_emp_ids file_name
     (world_of (JsonRecords [emp (VStr "A"); emp (VStr "A")]))).2 ∧
  prints file_name
    (find_duplicate_emp_ids file_name
       (world_of (JsonRecords [emp (VStr "A"); emp (VStr "A")]))).1
    [Plain (header_line 1);
     Rendered (mkDataFrame [("EMP ID", [VStr "A"]);
                            ("Count of Entries", [VNum 2])])].
Proof.
  apply (second_call_repeats_report
           (world_of (JsonRecords [emp (VStr "A"); emp (VStr "A")]))).
  reflexivity.
Defined.

Lemma cells_agree rs rs' :
  Forall2 (λ r r', r !! "EMP ID" = r' !! "EMP ID") rs rs' →
  cell "EMP ID" <$> rs = cell "EMP ID" <$> rs'.
Proof.
  induction 1 as [|r r' rs rs' Hr _ IH]; [done|].
  cbn [fmap list_fmap]. unfold cell at 1 3. by rewrite Hr, IH.
Qed.

Lemma column_agree rs rs' :
  Forall2 (λ r r', r !! "EMP ID" = r' !! "EMP ID") rs rs' →
  getitem_column (from_records rs) "EMP ID" =
    getitem_column (from_records rs') "EMP ID".
Proof.
  intros Hall.
  destruct (getitem_column (from_records rs) "EMP ID") as [cells|] eqn:Hcol.
  - assert (is_Some (getitem_column (from_records rs) "EMP ID")) as Hs
      by by eexists.
    apply getitem_column_is_Some in Hs as (r & Hr & Hkey).
    apply list_elem_of_lookup in Hr as [i Hi].
    destruct (Forall2_lookup_l _ _ _ _ _ Hall Hi) as (r' & Hi' & Hrr').
    rewrite Hrr' in Hkey.
    rewrite (getitem_column_Some "EMP ID" rs' r'
               (list_elem_of_lookup_2 _ _ _ Hi') Hkey).
    apply getitem_column_inv in Hcol as ->. f_equal. by apply cells_agree.
  - symmetry. apply getitem_column_is_None. intros r' Hr'.
    apply list_elem_of_lookup in Hr' as [i Hi'].
    destruct (Forall2_lookup_r _ _ _ _ _ Hall Hi') as (r & Hi & Hrr').
    rewrite <- Hrr'.
    by apply (proj1 (getitem_column_is_None "EMP ID" rs) Hcol r),
      list_elem_of_lookup_2 with i.
Qed.

(** X10: only the "EMP ID" field of the records is looked at.  Two
    record collections whose records agree one by one on "EMP ID" (present
    with the same value, or absent in both), whatever their other fields,
    make the run end the same way and print the same lines. *)
Theorem other_fields_are_ignored w w' path path' rs rs' out :
  files w !! path = Some (JsonRecords rs) →
  files w' !! path' = Some (JsonRecords rs') →
  Forall2 (λ r r', r !! "EMP ID" = r' !! "EMP ID") rs rs' →
  prints path w out →
  (find_duplicate_emp_ids path w).2 = (find_duplicate_emp_ids path' w').2 ∧
  prints path' w' out.
Proof.
  intros Hfile Hfile' Hall Hout.
  pose proof (column_agree rs rs' Hall) as Hcols.
  destruct (getitem_column (from_records rs) "EMP ID") as [cells|] eqn:Hcol;
    symmetry in Hcols.
  - destruct (loaded_run w path rs cells Hfile Hcol) as (Hret & _).
    destruct (loaded_run w' path' rs' cells Hfile' Hcols) as (Hret' & _).
    unfold returns in *. split; [congruence|].
    apply (loaded_prints w path rs cells out Hfile Hcol) in Hout as ->.
    by apply (loaded_prints w' path' rs' cells _ Hfile' Hcols).
  - rewrite (run_no_column w path rs Hfile Hcol),
      (run_no_column w' path' rs' Hfile' Hcols).
    split; [done|].
    assert (out = []) as ->; [|by apply prints_nil_unfold; rewrite (run_no_column w' path' rs' Hfile' Hcols)].
    apply (prints_inj path w); [done|]. apply prints_nil_unfold.
    by rewrite (run_no_column w path rs Hfile Hcol).
Qed.

Lemma other_fields_are_ignored_witness :
  (find_duplicate_emp_ids file_name
     (world_of (JsonRecords [emp (VStr "A"); emp (VStr "A")]))).2 =
  (find_duplicate_emp_ids file_name
     (world_of (JsonRecords [{[ "EMP ID" := VStr "A"; "NAME" := VStr "x" ]};
                             {[ "EMP ID" := VStr "A"; "AGE" := VNum 30 ]}]))).2 ∧
  prints file_name
    (world_of (JsonRecords [{[ "EMP ID" := VStr "A"; "NAME" := VStr "x" ]};
                            {[ "EMP ID" := VStr "A"; "AGE" := VNum 30 ]}]))
    [Plain (header_line 1);
     Rendered (mkDataFrame [("EMP ID", [VStr "A"]);
                            ("Count of Entries", [VNum 2])])].
Proof.
  apply (other_fields_are_ignored
           (world_of (JsonRecords [emp (VStr "A"); emp (VStr "A")])) _
           file_name file_name
           [emp (VStr "A"); emp (VStr "A")]
           [{[ "EMP ID" := VStr "A"; "NAME" := VStr "x" ]};
            {[ "EMP ID" := VStr "A"; "AGE" := VNum 30 ]}]).
  - reflexivity.
  - reflexivity.
  - repeat constructor.
  - reflexivity.
Defined.

End dependence.

Section order.

Implicit Types (w : World) (path : string) (rs : list record)
  (cells : list value) (v : value) (out : list text).

(** X11: a file that parses to a record collection is processed to the
    end exactly when at least one of its records has the "EMP ID" field;
    records without the field do no harm as long as one has it. *)
Theorem succeeds_iff_some_record_has_field w path rs :
  files w !! path = Some (JsonRecords rs) →
  (returns path w ↔ ∃ r, r ∈ rs ∧ is_Some (r !! "EMP ID")).
Proof.
  intros Hfile. rewrite <- getitem_column_is_Some. unfold returns.
  destruct (getitem_column (from_records rs) "EMP ID") as [cells|] eqn:Hcol.
  - destruct (loaded_run w path rs cells Hfile Hcol) as (Hret & _).
    split; [by eexists | done].
  - rewrite (run_no_column w path rs Hfile Hcol). split; [done|].
    by intros [? ?].
Qed.

Lemma succeeds_iff_some_record_has_field_witness :
  returns file_name
    (world_of (JsonRecords [{[ "X" := VNum 1 ]}; emp (VStr "A")])) ↔
  ∃ r, r ∈ [{[ "X" := VNum 1 ]}; emp (VStr "A")] ∧ is_Some (r !! "EMP ID").
Proof.
  apply (succeeds_iff_some_record_has_field _ file_name). reflexivity.
Defined.

Lemma occurrences_Permutation v cells cells' :
  cells ≡ₚ cells' → occurrences v cells = occurrences v cells'.
Proof. unfold occurrences. by intros ->. Qed.

Lemma duplicates_Permutation cells cells' :
  cells ≡ₚ cells' → duplicates cells ≡ₚ duplicates cells'.
Proof.
  intros Hp. apply NoDup_Permutation.
  - eapply NoDup_fmap_1, NoDup_duplicates.
  - eapply NoDup_fmap_1, NoDup_duplicates.
  - intros [v n]. by rewrite !elem_of_duplicates, (occurrences_Permutation v _ _ Hp).
Qed.

Lemma report_Permutation cells cells' :
  cells ≡ₚ cells' → Forall2 same_rows (report cells) (report cells').
Proof.
  intros Hp. pose proof (duplicates_Permutation _ _ Hp) as Hd.
  unfold report. rewrite (Permutation_length Hd).
  case_bool_decide.
  - by apply Forall2_cons_2; [|constructor].
  - apply Forall2_cons_2; [done|]. apply Forall2_cons_2; [|constructor].
    cbn [same_rows]. split; [done|]. by rewrite !rows_report_frame, Hd.
Qed.

(** X12: the order of the records in the file does not matter.  Two
    collections that hold the same records in another order make the run
    end the same way; both runs print the same lines, and if a table is
    printed the two tables have the same columns and the same rows, up to
    the order of the rows. *)
Theorem record_order_is_irrelevant w w' path path' rs rs' out :
  files w !! path = Some (JsonRecords rs) →
  files w' !! path' = Some (JsonRecords rs') →
  rs ≡ₚ rs' →
  prints path w out →
  (find_duplicate_emp_ids path w).2 = (find_duplicate_emp_ids path' w').2 ∧
  ∃ out', prints path' w' out' ∧ Forall2 same_rows out out'.
Proof.
  intros Hfile Hfile' Hp Hout.
  destruct (getitem_column (from_records rs) "EMP ID") as [cells|] eqn:Hcol.
  - assert (is_Some (getitem_column (from_records rs') "EMP ID")) as [cells' Hcol'].
    { apply getitem_column_is_Some.
      assert (is_Some (getitem_column (from_records rs) "EMP ID")) as Hs
        by by eexists.
      apply getitem_column_is_Some in Hs as (r & Hr & Hkey).
      exists r. by rewrite <- Hp. }
    destruct (loaded_run w path rs cells Hfile Hcol) as (Hret & _).
    destruct (loaded_run w' path' rs' cells' Hfile' Hcol') as (Hret' & Hout' & _).
    unfold returns in *. split; [congruence|]. exists (report cells').
    split; [done|].
    apply (loaded_prints w path rs cells out Hfile Hcol) in Hout as ->.
    apply report_Permutation.
    apply getitem_column_inv in Hcol as ->.
    apply getitem_column_inv in Hcol' as ->. by rewrite Hp.
  - assert (getitem_column (from_records rs') "EMP ID" = None) as Hcol'.
    { apply getitem_column_is_None. intros r Hr. rewrite <- Hp in Hr.
      by apply (proj1 (getitem_column_is_None "EMP ID" rs) Hcol). }
    rewrite (run_no_column w path rs Hfile Hcol),
      (run_no_column w' path' rs' Hfile' Hcol').
    split; [done|]. exists [].
    split; [by apply prints_nil_unfold; rewrite (run_no_column w' path' rs' Hfile' Hcol')|].
    assert (out = []) as ->; [|constructor].
    apply (prints_inj path w); [done|]. apply prints_nil_unfold.
    by rewrite (run_no_column w path rs Hfile Hcol).
Qed.

Lemma record_order_is_irrelevant_witness :
  (find_duplicate_emp_ids file_name
     (world_of (JsonRecords [emp (VStr "A"); emp (VStr "A"); emp (VStr "B")]))).2 =
  (find_duplicate_emp_ids file_name
     (world_of (JsonRecords [emp (VStr "A"); emp (VStr "B"); emp (VStr "A")]))).2 ∧
  ∃ out',
    prints file_name
      (world_of (JsonRecords [emp (VStr "A"); emp (VStr "B"); emp (VStr "A")]))
      out' ∧
    Forall2 same_rows
      [Plain (header_line 1);
       Rendered (mkDataFrame [("EMP ID", [VStr "A"]);
                              ("Count of Entries", [VNum 2])])]
      out'.
Proof.
  apply (record_order_is_irrelevant
           (world_of (JsonRecords [emp (VStr "A"); emp (VStr "A");
                                   emp (VStr "B")])) _
           file_name file_name
           [emp (VStr "A"); emp (VStr "A"); emp (VStr "B")]
           [emp (VStr "A"); emp (VStr "B"); emp (VStr "A")]).
  - reflexivity.
  - reflexivity.
  - apply perm_skip, perm_swap.
  - reflexivity.
Defined.

End order.
